(** * Quanergy M8 client: a shallow embedding of [m8_client.cpp]

    The development follows the C++ class [M8Client] (a PCL grabber for
    the Quanergy M8 LiDAR): the packet queue fed by the socket thread,
    the decoding of a 6612-byte TCP packet into firings, the assembly of
    sweeps in [toPointClouds], the transposition [organizeCloud], the
    polar-to-Cartesian conversion [computeXYZ] and the start-up sequence
    [start].

    Numbers are modelled as the code has them:
    - [double] and [float] are IEEE 754 binary64 / binary32 values,
      represented by [spec_float] with the operations of [SpecFloat]
      (round to nearest, ties to even);
    - [unsigned short], [unsigned int], [uint32_t] are [Z] with the
      wrap-around modulo 2^16 / 2^32 written where the code can wrap;
    - the [int] counter of dropped packets is a [Z] whose increment
      past [INT_MAX] is undefined behaviour;
    - a raw packet is the list of bytes read from the socket, decoded
      at the offsets of the [M8DataPacket] layout (little endian). *)

From Stdlib Require Import ZArith List Lia Bool Permutation.
From Stdlib Require Import Floats.SpecFloat Strings.Byte.
Import ListNotations.

Set Implicit Arguments.
Local Open Scope Z_scope.

(** ** IEEE 754 arithmetic *)

(** [double]: binary64. *)
Module Double.
Definition prec : Z := 53.
Definition emax : Z := 1024.

Definition add : spec_float -> spec_float -> spec_float := SFadd prec emax.
Definition sub : spec_float -> spec_float -> spec_float := SFsub prec emax.
Definition mul : spec_float -> spec_float -> spec_float := SFmul prec emax.
Definition div : spec_float -> spec_float -> spec_float := SFdiv prec emax.
Definition ltb : spec_float -> spec_float -> bool := SFltb.

(** Conversion of an integer ([int], [unsigned int]) to [double]. *)
Definition of_Z (n : Z) : spec_float := binary_normalize prec emax n 0 false.

(** Widening of a [float]: exact, the mantissa is realigned to 53 bits. *)
Definition of_single (f : spec_float) : spec_float :=
  match f with
  | S754_finite s m e => binary_round prec emax s m e
  | _ => f
  end.

(** Conversion to a 64-bit integer ([time_t]): truncation toward zero.
    The conversion of a NaN or an infinity is undefined in C++; the
    model gives 0 (the only use converts a finite value). *)
Definition to_Z (d : spec_float) : Z :=
  match d with
  | S754_finite s m e =>
      let v := match e with
               | Zneg p => Z.shiftr (Zpos m) (Zpos p)
               | _ => Z.shiftl (Zpos m) e
               end in
      if s then - v else v
  | _ => 0
  end.
End Double.

(** [float]: binary32. *)
Module Single.
Definition prec : Z := 24.
Definition emax : Z := 128.

(** Narrowing of a [double] ([static_cast<float>], or the
    initialisation of a [float] from a [double] expression). *)
Definition of_double (d : spec_float) : spec_float :=
  match d with
  | S754_finite s m e => binary_round prec emax s m e
  | _ => d
  end.

Definition of_Z (n : Z) : spec_float := binary_normalize prec emax n 0 false.

(** [std::numeric_limits<float>::quiet_NaN ()] *)
Definition quiet_NaN : spec_float := S754_nan.
End Single.

(** [std::isnan] *)
Definition isnan (v : spec_float) : bool :=
  match v with
  | S754_nan => true
  | _ => false
  end.

(** The literal [.01]: the double nearest to 1/100 (0x3F847AE147AE147B). *)
Definition lit_0_01 : spec_float := S754_finite false 5764607523034235 (-59).
(** The literal [1e9], exactly representable. *)
Definition lit_1e9 : spec_float := Double.of_Z 1000000000.
(** The literals [360.0] and [180.]. *)
Definition lit_360 : spec_float := Double.of_Z 360.
Definition lit_180 : spec_float := Double.of_Z 180.

(** ** Constants of the class (m8_client.h) *)

Definition M8_NUM_ROT_ANGLES : Z := 10400.
Definition M8_FIRING_PER_PKT : Z := 50.
Definition M8_PACKET_BYTES : Z := 6612.
Definition M8_NUM_RETURNS : Z := 3.
Definition M8_NUM_LASERS : Z := 8.

(** ** The wire format: [M8FiringData] and [M8DataPacket]

    A packet is the buffer itself; [toPointClouds] receives it through
    [reinterpret_cast<M8DataPacket*>].  The accessors read the fields at
    the offsets of the two structures (132 bytes per firing, 50 firings,
    then three 32-bit words). *)

Definition M8DataPacket : Type := list byte.

Definition byte_at (buf : M8DataPacket) (off : Z) : Z :=
  Z.of_N (Byte.to_N (nth (Z.to_nat off) buf x00)).

Definition u16_at (buf : M8DataPacket) (off : Z) : Z :=
  byte_at buf off + 256 * byte_at buf (off + 1).

Definition u32_at (buf : M8DataPacket) (off : Z) : Z :=
  byte_at buf off + 256 * byte_at buf (off + 1)
  + 65536 * byte_at buf (off + 2) + 16777216 * byte_at buf (off + 3).

(** sizeof (M8FiringData) *)
Definition firing_bytes : Z := 132.

(** [data_packet->data[i].position] : unsigned short *)
Definition position (pkt : M8DataPacket) (i : Z) : Z :=
  u16_at pkt (firing_bytes * i).

(** [data_packet->data[i].returns_distances[r][j]] : unsigned int *)
Definition returns_distances (pkt : M8DataPacket) (i r j : Z) : Z :=
  u32_at pkt (firing_bytes * i + 4 + 4 * (M8_NUM_LASERS * r + j)).

(** [data_packet->data[i].returns_intensities[r][j]] : unsigned char *)
Definition returns_intensities (pkt : M8DataPacket) (i r j : Z) : Z :=
  byte_at pkt (firing_bytes * i + 100 + (M8_NUM_LASERS * r + j)).

(** [data_packet->seconds], [data_packet->nanoseconds] : unsigned int *)
Definition seconds (pkt : M8DataPacket) : Z :=
  u32_at pkt (firing_bytes * M8_FIRING_PER_PKT).
Definition nanoseconds (pkt : M8DataPacket) : Z :=
  u32_at pkt (firing_bytes * M8_FIRING_PER_PKT + 4).

(** ** Points and point clouds (the part of PCL the client uses) *)

(** [pcl::PointXYZI]: four [float] members. *)
Record PointXYZI : Type := mkPoint {
  x : spec_float;
  y : spec_float;
  z : spec_float;
  intensity : spec_float
}.

(** A default-constructed [pcl::PointXYZI]. *)
Definition PointXYZI_default : PointXYZI :=
  mkPoint (S754_zero false) (S754_zero false) (S754_zero false) (S754_zero false).

(** Outcome of a call: a state, an exception, or an operation the
    language leaves undefined. *)
Inductive outcome (A : Type) : Type :=
  | Ok (a : A)
  | Thrown_out_of_range   (* std::out_of_range, thrown by [vector::at] *)
  | Undefined_behaviour.  (* [operator[]] of a vector past its end,
                             overflow of an [int] *)

Arguments Ok {A} a.
Arguments Thrown_out_of_range {A}.
Arguments Undefined_behaviour {A}.

Definition bind {A B : Type} (m : outcome A) (k : A -> outcome B) : outcome B :=
  match m with
  | Ok a => k a
  | Thrown_out_of_range => Thrown_out_of_range
  | Undefined_behaviour => Undefined_behaviour
  end.

Notation "v <- m ;; k" := (bind m (fun v => k))
  (at level 61, m at next level, right associativity).

(** [for (i = first; ...; ++i)] run [count] times, and its [--i] twin. *)
Fixpoint for_up {S : Type} (count : nat) (i : Z) (body : Z -> S -> outcome S) (s : S)
    : outcome S :=
  match count with
  | O => Ok s
  | Datatypes.S n => s' <- body i s ;; for_up n (i + 1) body s'
  end.

Fixpoint for_down {S : Type} (count : nat) (i : Z) (body : Z -> S -> outcome S) (s : S)
    : outcome S :=
  match count with
  | O => Ok s
  | Datatypes.S n => s' <- body i s ;; for_down n (i - 1) body s'
  end.

(** Conversions to [unsigned short] and to [unsigned int] / [uint32_t]. *)
Definition uint16 (n : Z) : Z := n mod 2 ^ 16.
Definition uint32 (n : Z) : Z := n mod 2 ^ 32.

(** [pcl::PointCloud<pcl::PointXYZI>]: header (stamp, seq), the points,
    the logical dimensions and the dense flag. *)
Record PointCloud : Type := mkCloud {
  header_stamp : Z;
  header_seq : Z;
  points : list PointXYZI;
  width : Z;
  height : Z;
  is_dense : bool
}.

(** [new PointCloud]: PCL's default constructor gives an empty cloud,
    width and height 0 and [is_dense] true. *)
Definition new_PointCloud : PointCloud := mkCloud 0 0 [] 0 0 true.

(** [cloud->size ()] *)
Definition size (c : PointCloud) : Z := Z.of_nat (length (points c)).

(** [cloud->at (n)]: bounds-checked. *)
Definition at_ (c : PointCloud) (n : Z) : outcome PointXYZI :=
  match nth_error (points c) (Z.to_nat n) with
  | Some p => Ok p
  | None => Thrown_out_of_range
  end.

(** [cloud->push_back (pt)]: PCL appends the point and makes the cloud
    one row of [size ()] columns. *)
Definition push_back (pt : PointXYZI) (c : PointCloud) : PointCloud :=
  mkCloud (header_stamp c) (header_seq c) (points c ++ [pt])
          (uint32 (size c + 1)) 1 (is_dense c).

Definition set_is_dense (b : bool) (c : PointCloud) : PointCloud :=
  mkCloud (header_stamp c) (header_seq c) (points c) (width c) (height c) b.

Definition set_header (stamp sq : Z) (c : PointCloud) : PointCloud :=
  mkCloud stamp sq (points c) (width c) (height c) (is_dense c).

Definition set_dims (w h : Z) (c : PointCloud) : PointCloud :=
  mkCloud (header_stamp c) (header_seq c) (points c) w h (is_dense c).

(** ** [M8Client::computeXYZ] *)

Definition computeXYZ (range cos_hz_angle sin_hz_angle cos_vt_angle sin_vt_angle : spec_float)
    (point : PointXYZI) : PointXYZI :=
  if isnan range then
    mkPoint Single.quiet_NaN Single.quiet_NaN Single.quiet_NaN (intensity point)
  else
    (* get the distance to the XY plane *)
    let xy_distance := Double.sub (Double.mul range cos_vt_angle) sin_vt_angle in
    mkPoint
      (Single.of_double (Double.mul xy_distance cos_hz_angle))
      (Single.of_double (Double.mul xy_distance sin_hz_angle))
      (Single.of_double (Double.add (Double.mul range sin_vt_angle) cos_vt_angle))
      (intensity point).

(** ** [M8Client::organizeCloud]

    The argument is the cloud [current_xyzi] points to; the result is the
    cloud it points to after the swap.  [size ()] is a 64-bit [size_t];
    [width] and [temp_index] are [unsigned int]. *)

(** [temp_index = j * M8_NUM_LASERS; if (M8_NUM_LASERS == 8) temp_index += i;] *)
Definition temp_index (i j : Z) : Z :=
  let t := uint32 (j * M8_NUM_LASERS) in
  if M8_NUM_LASERS =? 8 then uint32 (t + i) else t.

Definition organize_ring (current_xyzi : PointCloud) (width : Z) (i : Z)
    (temp_xyzi : PointCloud) : outcome PointCloud :=
  (* iterate through width in collect order *)
  for_up (Z.to_nat width) 0
    (fun j temp =>
       (* original data is in collect order and laser order *)
       pt <- at_ current_xyzi (temp_index i j) ;;
       Ok (push_back pt temp))
    temp_xyzi.

Definition organizeCloud (current_xyzi : PointCloud) : outcome PointCloud :=
  let temp_xyzi := new_PointCloud in
  let width := uint32 (size current_xyzi / M8_NUM_LASERS) in
  (* iterate through each ring from top down *)
  temp <- for_down (Z.to_nat M8_NUM_LASERS) (M8_NUM_LASERS - 1)
            (organize_ring current_xyzi width) temp_xyzi ;;
  Ok (set_dims width M8_NUM_LASERS temp).

(** ** The client *)

(** Lines written to [std::cerr] and [std::cout]. *)
Inductive message : Type :=
  | Dropped_total (n : Z)    (* "enqueueM8Packet: dropped a total of n packets..." *)
  | Unable_to_bind           (* "Unable to bind to socket! ..." *)
  | Sensor_connected.        (* "Sensor connected, starting to read packets" *)

(** The member functions handed to [boost::thread]. *)
Inductive thread_entry : Type :=
  | Thread_processM8Packets
  | Thread_read.

(** The mutable members of [M8Client], followed by what the object does
    to its environment: the sweeps passed to the slots of
    [sweep_xyzi_signal_], the threads it has launched and the lines it
    has printed (oldest first).  A pointer member is [true] when it is
    not NULL.  [data_queue_] lists the buffers held by the
    [pcl::SynchronizedQueue], front first, while the queue accepts data.
    [dropped_packets_] is an [int]: a number of [Z] that [++] may take
    no further than [INT_MAX]. *)
Record M8Client : Type := mkClient {
  data_queue_ : list M8DataPacket;
  read_socket_ : bool;
  queue_consumer_thread_ : bool;
  read_packet_thread_ : bool;
  terminate_read_packet_thread_ : bool;
  current_sweep_xyzi_ : PointCloud;
  last_azimuth_ : spec_float;
  dropped_packets_ : Z;
  scan_counter_ : Z;
  sweep_counter_ : Z;
  num_slots : nat;
  fired : list PointCloud;
  launched : list thread_entry;
  printed : list message
}.

(** The constructor: [last_azimuth_ (65000)], [sweep_counter_ (0)],
    [dropped_packets_ (0)], an empty current sweep, no socket and no
    thread.  [scan_counter_] has no initialiser: its first value is
    whatever the memory holds, the parameter [scan0]. *)
Definition M8Client_new (scan0 : Z) (slots : nat) : M8Client :=
  mkClient [] false false false false new_PointCloud (Double.of_Z 65000)
           0 (uint32 scan0) 0 slots [] [] [].

Definition set_queue (q : list M8DataPacket) (c : M8Client) : M8Client :=
  mkClient q (read_socket_ c) (queue_consumer_thread_ c) (read_packet_thread_ c)
    (terminate_read_packet_thread_ c) (current_sweep_xyzi_ c) (last_azimuth_ c)
    (dropped_packets_ c) (scan_counter_ c) (sweep_counter_ c) (num_slots c)
    (fired c) (launched c) (printed c).

Definition set_dropped (n : Z) (c : M8Client) : M8Client :=
  mkClient (data_queue_ c) (read_socket_ c) (queue_consumer_thread_ c)
    (read_packet_thread_ c) (terminate_read_packet_thread_ c)
    (current_sweep_xyzi_ c) (last_azimuth_ c) n (scan_counter_ c)
    (sweep_counter_ c) (num_slots c) (fired c) (launched c) (printed c).

Definition print (m : message) (c : M8Client) : M8Client :=
  mkClient (data_queue_ c) (read_socket_ c) (queue_consumer_thread_ c)
    (read_packet_thread_ c) (terminate_read_packet_thread_ c)
    (current_sweep_xyzi_ c) (last_azimuth_ c) (dropped_packets_ c)
    (scan_counter_ c) (sweep_counter_ c) (num_slots c) (fired c) (launched c)
    (printed c ++ [m]).

Definition set_read_socket (b : bool) (c : M8Client) : M8Client :=
  mkClient (data_queue_ c) b (queue_consumer_thread_ c) (read_packet_thread_ c)
    (terminate_read_packet_thread_ c) (current_sweep_xyzi_ c) (last_azimuth_ c)
    (dropped_packets_ c) (scan_counter_ c) (sweep_counter_ c) (num_slots c)
    (fired c) (launched c) (printed c).

Definition set_terminate (b : bool) (c : M8Client) : M8Client :=
  mkClient (data_queue_ c) (read_socket_ c) (queue_consumer_thread_ c)
    (read_packet_thread_ c) b (current_sweep_xyzi_ c) (last_azimuth_ c)
    (dropped_packets_ c) (scan_counter_ c) (sweep_counter_ c) (num_slots c)
    (fired c) (launched c) (printed c).

(** [member = new boost::thread (...)]: the pointer is set and the thread
    runs. *)
Definition launch (t : thread_entry) (c : M8Client) : M8Client :=
  mkClient (data_queue_ c) (read_socket_ c)
    (match t with Thread_processM8Packets => true | _ => queue_consumer_thread_ c end)
    (match t with Thread_read => true | _ => read_packet_thread_ c end)
    (terminate_read_packet_thread_ c) (current_sweep_xyzi_ c) (last_azimuth_ c)
    (dropped_packets_ c) (scan_counter_ c) (sweep_counter_ c) (num_slots c)
    (fired c) (launched c ++ [t]) (printed c).

Definition set_sweep (s : PointCloud) (c : M8Client) : M8Client :=
  mkClient (data_queue_ c) (read_socket_ c) (queue_consumer_thread_ c)
    (read_packet_thread_ c) (terminate_read_packet_thread_ c) s (last_azimuth_ c)
    (dropped_packets_ c) (scan_counter_ c) (sweep_counter_ c) (num_slots c)
    (fired c) (launched c) (printed c).

Definition set_last_azimuth (a : spec_float) (c : M8Client) : M8Client :=
  mkClient (data_queue_ c) (read_socket_ c) (queue_consumer_thread_ c)
    (read_packet_thread_ c) (terminate_read_packet_thread_ c)
    (current_sweep_xyzi_ c) a (dropped_packets_ c) (scan_counter_ c)
    (sweep_counter_ c) (num_slots c) (fired c) (launched c) (printed c).

Definition set_scan_counter (n : Z) (c : M8Client) : M8Client :=
  mkClient (data_queue_ c) (read_socket_ c) (queue_consumer_thread_ c)
    (read_packet_thread_ c) (terminate_read_packet_thread_ c)
    (current_sweep_xyzi_ c) (last_azimuth_ c) (dropped_packets_ c) n
    (sweep_counter_ c) (num_slots c) (fired c) (launched c) (printed c).

Definition set_sweep_counter (n : Z) (c : M8Client) : M8Client :=
  mkClient (data_queue_ c) (read_socket_ c) (queue_consumer_thread_ c)
    (read_packet_thread_ c) (terminate_read_packet_thread_ c)
    (current_sweep_xyzi_ c) (last_azimuth_ c) (dropped_packets_ c)
    (scan_counter_ c) n (num_slots c) (fired c) (launched c) (printed c).

Definition set_fired (l : list PointCloud) (c : M8Client) : M8Client :=
  mkClient (data_queue_ c) (read_socket_ c) (queue_consumer_thread_ c)
    (read_packet_thread_ c) (terminate_read_packet_thread_ c)
    (current_sweep_xyzi_ c) (last_azimuth_ c) (dropped_packets_ c)
    (scan_counter_ c) (sweep_counter_ c) (num_slots c) l (launched c) (printed c).

(** *** [M8Client::isRunning] *)
Definition isRunning (c : M8Client) : bool :=
  negb (match data_queue_ c with [] => true | _ => false end)
  || read_packet_thread_ c.

(** The largest [int] (32 bits). *)
Definition INT_MAX : Z := 2147483647.

(** *** [M8Client::enqueueM8Packet]

    [data] is the receive buffer and [bytes_received] the number of
    bytes read into it; the copy [dup] holds the first [bytes_received]
    bytes.  [++dropped_packets_] on a counter that holds [INT_MAX] is a
    signed overflow: undefined behaviour. *)
Definition enqueueM8Packet (data : list byte) (bytes_received : Z) (c : M8Client)
    : outcome M8Client :=
  if bytes_received =? M8_PACKET_BYTES then
    if Z.of_nat (length (data_queue_ c)) >? 1000 then
      if dropped_packets_ c <? INT_MAX then
        let c1 := set_dropped (dropped_packets_ c + 1) c in
        if Z.land (dropped_packets_ c1) (dropped_packets_ c1 - 1) =? 0
        then Ok (print (Dropped_total (dropped_packets_ c1)) c1)
        else Ok c1
      else Undefined_behaviour
    else
      let dup := firstn (Z.to_nat bytes_received) data in
      Ok (set_queue (data_queue_ c ++ [dup]) c)
  else Ok c.

(** *** [M8Client::start]

    The calls on the socket either return or throw
    [boost::system::system_error]; [network] says which. *)
Record network : Type := mkNetwork {
  connect_given : bool;   (* open, set_option and connect to the given endpoint succeed *)
  connect_any : bool;     (* the same to [address_v4::any ()] at that port *)
  service_run : bool      (* [read_socket_service_.run ()] returns *)
}.

Definition start (net : network) (c : M8Client) : M8Client :=
  let c := set_terminate false c in
  let c := launch Thread_processM8Packets c in
  (* the inner try and its handler both create the read socket *)
  let c := set_read_socket true c in
  let connected :=
    if connect_given net then true
    else (* if we fail, connect to any IP at that port *) connect_any net in
  if connected && service_run net then
    (* At this point the connection has been established *)
    let c := print Sensor_connected c in
    launch Thread_read c
  else
    (* you can't recover from this *)
    print Unable_to_bind c.

(** *** [M8Client::fireCurrentSweep] *)
Definition fireCurrentSweep (c : M8Client) : M8Client :=
  if (0 <? num_slots c)%nat
  then set_fired (fired c ++ [current_sweep_xyzi_ c]) c
  else c.

(** ** Sweep assembly *)

(** [M_PI] (0x400921FB54442D18). *)
Definition M_PI : spec_float := S754_finite false 7074237752028440 (-51).

(** A decimal literal [n / 10^k], correctly rounded. *)
Definition decimal (n : Z) (pow10 : Z) : spec_float :=
  Double.div (Double.of_Z n) (Double.of_Z pow10).

Definition M8_VERTICAL_ANGLES : list spec_float :=
  [ decimal (-318505) 1000000; decimal (-2692) 10000; decimal (-218009) 1000000;
    decimal (-165195) 1000000; decimal (-111003) 1000000;
    decimal (-557982) 10000000; Double.of_Z 0; decimal 557982 10000000 ].

(** [time = data_packet->seconds * 1e9 + data_packet->nanoseconds]
    (the branch compiled without CLIENT_TIME), a [double] converted to
    [time_t]. *)
Definition capture_time (pkt : M8DataPacket) : Z :=
  Double.to_Z (Double.add (Double.mul (Double.of_Z (seconds pkt)) lit_1e9)
                          (Double.of_Z (nanoseconds pkt))).

(** [spin]: the first and last positions of the packet differ by at
    least [M8_FIRING_PER_PKT / 10]. *)
Definition spin (pkt : M8DataPacket) : bool :=
  negb (Z.abs (position pkt 0 - position pkt (M8_FIRING_PER_PKT - 1))
        <? M8_FIRING_PER_PKT / 10).

Definition direction (pkt : M8DataPacket) : Z :=
  let first := position pkt 0 in
  let last := position pkt (M8_FIRING_PER_PKT - 1) in
  if spin pkt then
    if first - last >? 0
    then (if first - last >? 4000 then 1 else -1)
    else (if last - first >? 4000 then 1 else -1)
  else 1.

(** [data.position] as the loop body sees it: the value on the wire, or,
    for a sensor that does not spin, the value the body writes first. *)
Definition firing_position (pkt : M8DataPacket) (scan_counter : Z) (i : Z) : Z :=
  if spin pkt then position pkt i
  else uint16 (uint32 (uint32 (scan_counter * M8_FIRING_PER_PKT) + i) mod 1000).

(** the angle in degrees *)
Definition azimuth_angle (pos : Z) : spec_float :=
  Double.sub
    (Double.mul
       (Double.div
          (Double.of_Z ((pos + M8_NUM_ROT_ANGLES / 2) mod M8_NUM_ROT_ANGLES))
          (Double.of_Z M8_NUM_ROT_ANGLES))
       lit_360)
    lit_180.

(** The test [direction * azimuth_angle < direction * last_azimuth_]. *)
Definition sweep_boundary (dir : Z) (azimuth last_azimuth : spec_float) : bool :=
  Double.ltb (Double.mul (Double.of_Z dir) azimuth)
             (Double.mul (Double.of_Z dir) last_azimuth).

(** The body of [if (direction * azimuth_angle < direction * last_azimuth_)]. *)
Definition complete_sweep (time : Z) (c : M8Client) : outcome M8Client :=
  c1 <- (if 0 <? size (current_sweep_xyzi_ c) then
           organized <- organizeCloud (current_sweep_xyzi_ c) ;;
           let c := set_sweep (set_header time (sweep_counter_ c) organized) c in
           let c := set_sweep_counter (uint32 (sweep_counter_ c + 1)) c in
           (* fire the signal that we have a new cloud *)
           Ok (fireCurrentSweep c)
         else Ok c) ;;
  (* start a new cloud; at first we assume it is dense *)
  Ok (set_sweep (set_is_dense true new_PointCloud) c1).

(** [float range = data.returns_distances[0][j] * .01] *)
Definition range_of (distance : Z) : spec_float :=
  Single.of_double (Double.mul (Double.of_Z distance) lit_0_01).

Section Tables.

(** [std::cos] and [std::sin] of the C library. *)
Variables std_cos std_sin : spec_float -> spec_float.

(** A [std::vector<double>] that is filled once and then only read:
    its size and the value stored at each index below the size. *)
Record table : Type := mkTable {
  table_size : Z;
  table_data : Z -> spec_float
}.

(** The angle of entry [i], as the constructor computes it. *)
Definition table_angle (i : Z) : spec_float :=
  let to_rad := Double.div M_PI (Double.of_single (Single.of_Z 180)) in
  Double.mul to_rad
    (Double.mul (Double.div (Double.of_Z i) (Double.of_Z M8_NUM_ROT_ANGLES))
                (Double.of_single (Single.of_Z 360))).

(** The tables the constructor builds with [M8_NUM_ROT_ANGLES + 1]
    entries and fills for [i = 0 .. M8_NUM_ROT_ANGLES]. *)
Definition cos_lookup_table_ : table :=
  mkTable (M8_NUM_ROT_ANGLES + 1) (fun i => std_cos (table_angle i)).
Definition sin_lookup_table_ : table :=
  mkTable (M8_NUM_ROT_ANGLES + 1) (fun i => std_sin (table_angle i)).

Definition cos_vertical_angles_ : list spec_float := map std_cos M8_VERTICAL_ANGLES.
Definition sin_vertical_angles_ : list spec_float := map std_sin M8_VERTICAL_ANGLES.

(** [tbl[index]] on a [std::vector]: no bounds check, and an index is
    unsigned. *)
Definition lookup (tbl : table) (index : Z) : outcome spec_float :=
  if (0 <=? index) && (index <? table_size tbl)
  then Ok (table_data tbl index)
  else Undefined_behaviour.

(** [array[j]] on one of the two arrays of [M8_NUM_LASERS] doubles,
    with [0 <= j < M8_NUM_LASERS]. *)
Definition vertical (array : list spec_float) (j : Z) : spec_float :=
  nth (Z.to_nat j) array (S754_zero false).

(** The body of the loop over the lasers of firing [i]. *)
Definition add_point (pkt : M8DataPacket) (i : Z)
    (cos_horizontal_angle sin_horizontal_angle : spec_float)
    (j : Z) (sweep : PointCloud) : outcome PointCloud :=
  (* convert range to meters *)
  let range := range_of (returns_distances pkt i 0 j) in
  let xyzi := computeXYZ (Double.of_single range)
                cos_horizontal_angle sin_horizontal_angle
                (vertical cos_vertical_angles_ j) (vertical sin_vertical_angles_ j)
                PointXYZI_default in
  (* intensity value is fetched directly *)
  let xyzi := mkPoint (x xyzi) (y xyzi) (z xyzi)
                (Single.of_Z (returns_intensities pkt i 0 j)) in
  let sweep := push_back xyzi sweep in
  (* if the range is NaN, the cloud is not dense *)
  Ok (if is_dense sweep && isnan range then set_is_dense false sweep else sweep).

(** The body of the loop over the firings of a packet. *)
Definition process_firing (pkt : M8DataPacket) (time : Z) (dir : Z)
    (i : Z) (c : M8Client) : outcome M8Client :=
  let pos := firing_position pkt (scan_counter_ c) i in
  let azimuth := azimuth_angle pos in
  c <- (if sweep_boundary dir azimuth (last_azimuth_ c)
        then complete_sweep time c else Ok c) ;;
  cos_horizontal_angle <- lookup cos_lookup_table_ pos ;;
  sin_horizontal_angle <- lookup sin_lookup_table_ pos ;;
  sweep <- for_up (Z.to_nat M8_NUM_LASERS) 0
             (add_point pkt i cos_horizontal_angle sin_horizontal_angle)
             (current_sweep_xyzi_ c) ;;
  Ok (set_last_azimuth azimuth (set_sweep sweep c)).

(** *** [M8Client::toPointClouds] *)
Definition toPointClouds (pkt : M8DataPacket) (c : M8Client) : outcome M8Client :=
  let time := capture_time pkt in
  let c := set_scan_counter (uint32 (scan_counter_ c + 1)) c in
  for_up (Z.to_nat M8_FIRING_PER_PKT) 0
    (process_firing pkt time (direction pkt)) c.

(** *** [M8Client::processM8Packets]

    The loop takes the buffers out of the queue one by one, front
    first, and ends when [dequeue] returns false. *)
Fixpoint consume (queue : list M8DataPacket) (c : M8Client) : outcome M8Client :=
  match queue with
  | [] => Ok c
  | data :: rest =>
      c' <- toPointClouds data (set_queue rest c) ;;
      consume rest c'
  end.

Definition processM8Packets (c : M8Client) : outcome M8Client :=
  consume (data_queue_ c) c.

End Tables.

(** ** Packets for the examples *)

Definition byte_of_Z (v : Z) : byte :=
  match Byte.of_N (Z.to_N (v mod 256)) with
  | Some b => b
  | None => x00
  end.

(** [n] bytes of [v], least significant first. *)
Fixpoint le_bytes (n : nat) (v : Z) : list byte :=
  match n with
  | O => []
  | S n' => byte_of_Z v :: le_bytes n' (v / 256)
  end.

(** One [M8FiringData]: the position, 24 equal distances, 24 equal
    intensities, status 0. *)
Definition firing_of (pos distance intens : Z) : list byte :=
  le_bytes 2 pos ++ le_bytes 2 0
  ++ concat (repeat (le_bytes 4 distance) 24)
  ++ repeat (byte_of_Z intens) 24
  ++ repeat x00 8.

(** A packet from the positions of its firings. *)
Definition packet_of (positions : list Z) (distance intens secs nsecs : Z)
    : M8DataPacket :=
  concat (map (fun p => firing_of p distance intens) positions)
  ++ le_bytes 4 secs ++ le_bytes 4 nsecs ++ le_bytes 4 0.

(** Fifty positions [first, first + step, ...]. *)
Definition ramp (first step : Z) : list Z :=
  map (fun k => first + step * Z.of_nat k) (seq 0 50).

(** ** Definitions for the statements *)

(** What the specification says [computeXYZ] returns for a range that is
    not NaN, in double precision. *)
Definition spec_xyDistance (range cosV sinV : spec_float) : spec_float :=
  Double.sub (Double.mul range cosV) sinV.
Definition spec_x (range cosH sinH cosV sinV : spec_float) : spec_float :=
  Double.mul (spec_xyDistance range cosV sinV) cosH.
Definition spec_y (range cosH sinH cosV sinV : spec_float) : spec_float :=
  Double.mul (spec_xyDistance range cosV sinV) sinH.
Definition spec_z (range cosH sinH cosV sinV : spec_float) : spec_float :=
  Double.add (Double.mul range sinV) cosV.

(** Ring order, in the words of the specification: an outer loop over
    the lasers from the highest index down to zero, an inner loop over
    the firing index, selecting the sample at
    [firingIndex * 8 + laserIndex]. *)
Definition lasers_top_down : list nat := rev (seq 0 8).

Definition ring (sweep : list PointXYZI) (firings : nat) (laser : nat) : list PointXYZI :=
  map (fun firing => nth (firing * 8 + laser) sweep PointXYZI_default) (seq 0 firings).

Definition ring_order (sweep : list PointXYZI) (firings : nat) : list PointXYZI :=
  concat (map (ring sweep firings) lasers_top_down).

(** A cloud of 2^35 points. *)
Definition huge_sweep : PointCloud :=
  mkCloud 0 0 (repeat PointXYZI_default (Z.to_nat (2 ^ 35))) 0 1 true.

(** Sixteen points, numbered by their [x]. *)
Definition two_firings : PointCloud :=
  mkCloud 0 0
    (map (fun k => mkPoint (Single.of_Z (Z.of_nat k)) (S754_zero false)
                           (S754_zero false) (S754_zero false)) (seq 0 16))
    16 1 true.

(** The slot [temp_index] the inner loop of [organizeCloud] reads for
    laser [i] and firing [j], and the points it collects for a laser. *)
Definition temp_index_of (i j : nat) : nat :=
  Z.to_nat (temp_index (Z.of_nat i) (Z.of_nat j)).

Definition collected (sweep : list PointXYZI) (firings : nat) (i : nat) : list PointXYZI :=
  map (fun j => nth (temp_index_of i j) sweep PointXYZI_default) (seq 0 firings).

(** What the socket thread does with a buffer it has read:
    [enqueueM8Packet (data, length)]. *)
Definition push (data : list byte) (c : M8Client) : outcome M8Client :=
  enqueueM8Packet data (Z.of_nat (length data)) c.

(** Pushes with no pop in between. *)
Fixpoint push_all (buffers : list (list byte)) (c : M8Client) : outcome M8Client :=
  match buffers with
  | [] => Ok c
  | data :: rest => c' <- push data c ;; push_all rest c'
  end.

(** A buffer of the size of a packet, and one that is too short. *)
Definition packet_sized : list byte := repeat x00 (Z.to_nat M8_PACKET_BYTES).
Definition short_buffer : list byte := repeat x00 100.

(** A network on which no connection can be made. *)
Definition unreachable : network := mkNetwork false false true.

(** A packet whose first firing is at position 10399 and whose last is
    at position 2. *)
Definition wrapping_packet : M8DataPacket :=
  packet_of (10399 :: repeat 5 48 ++ [2]) 1234 77 1 2.

(** The numbers 10, 1 and 0 as doubles. *)
Definition d10 : spec_float := Double.of_Z 10.
Definition d1 : spec_float := Double.of_Z 1.
Definition d0 : spec_float := Double.of_Z 0.

(** The values a loop index takes: [count] values from [i] up. *)
Fixpoint upto (count : nat) (i : Z) : list Z :=
  match count with
  | O => []
  | S n => i :: upto n (i + 1)
  end.

(** The cloud [organizeCloud] leaves in [current_xyzi]. *)
Definition organized_cloud (c : PointCloud) : PointCloud :=
  mkCloud 0 0
    (concat (map (collected (points c) (Z.to_nat (uint32 (size c / M8_NUM_LASERS))))
                 lasers_top_down))
    (uint32 (size c / M8_NUM_LASERS)) M8_NUM_LASERS true.

(** The state after the sweep in progress has been delivered. *)
Definition delivered (time : Z) (c : M8Client) : M8Client :=
  fireCurrentSweep
    (set_sweep_counter (uint32 (sweep_counter_ c + 1))
       (set_sweep (set_header time (sweep_counter_ c)
                     (organized_cloud (current_sweep_xyzi_ c))) c)).

(** [push_back] of a list of points, first to last. *)
Definition append_points (pts : list PointXYZI) (sweep : PointCloud) : PointCloud :=
  fold_left (fun t pt => push_back pt t) pts sweep.

(** The empty sweep the assembler starts after a boundary. *)
Definition fresh_sweep : PointCloud := set_is_dense true new_PointCloud.

(** The state after the test of the boundary, when nothing throws. *)
Definition after_boundary (time : Z) (dir : Z) (azimuth : spec_float) (c : M8Client)
    : M8Client :=
  if sweep_boundary dir azimuth (last_azimuth_ c) then
    set_sweep fresh_sweep
      (if 0 <? size (current_sweep_xyzi_ c) then delivered time c else c)
  else c.

(** The sweeps delivered so far and the sweep in progress are dense. *)
Definition all_dense (c : M8Client) : Prop :=
  Forall (fun sweep => is_dense sweep = true) (fired c)
  /\ is_dense (current_sweep_xyzi_ c) = true.

Section Samples.

Variables std_cos std_sin : spec_float -> spec_float.

(** The point of laser [j] in firing [i]: the conversion of a range
    that is a number. *)
Definition sample_point (pkt : M8DataPacket) (i : Z)
    (cos_horizontal_angle sin_horizontal_angle : spec_float) (j : Z) : PointXYZI :=
  let range := Double.of_single (range_of (returns_distances pkt i 0 j)) in
  let cosV := vertical (cos_vertical_angles_ std_cos) j in
  let sinV := vertical (sin_vertical_angles_ std_sin) j in
  mkPoint
    (Single.of_double (spec_x range cos_horizontal_angle sin_horizontal_angle cosV sinV))
    (Single.of_double (spec_y range cos_horizontal_angle sin_horizontal_angle cosV sinV))
    (Single.of_double (spec_z range cos_horizontal_angle sin_horizontal_angle cosV sinV))
    (Single.of_Z (returns_intensities pkt i 0 j)).

(** The eight points of firing [i], at encoder position [pos]. *)
Definition firing_points (pkt : M8DataPacket) (i : Z) (pos : Z) : list PointXYZI :=
  map (sample_point pkt i
         (table_data (cos_lookup_table_ std_cos) pos)
         (table_data (sin_lookup_table_ std_sin) pos))
      (upto (Z.to_nat M8_NUM_LASERS) 0).

(** The state after firing [i], when its lookups are in bounds. *)
Definition after_firing (pkt : M8DataPacket) (time : Z) (dir : Z) (i : Z)
    (c : M8Client) : M8Client :=
  let pos := firing_position pkt (scan_counter_ c) i in
  let azimuth := azimuth_angle pos in
  let c1 := after_boundary time dir azimuth c in
  set_last_azimuth azimuth
    (set_sweep (append_points (firing_points pkt i pos) (current_sweep_xyzi_ c1)) c1).

End Samples.

(** A packet whose first firing reports position 20000. *)
Definition stray_packet : M8DataPacket :=
  packet_of (20000 :: repeat 0 49) 1234 77 1 2.

(** A packet of a sensor that stands still at position 5. *)
Definition still_packet : M8DataPacket :=
  packet_of (repeat 5 50) 1234 77 1 2.

(** A [std::cos] / [std::sin] for the examples. *)
Definition const_zero (_ : spec_float) : spec_float := S754_zero false.

(** The positions on the wire are indices of the tables. *)
Definition in_table (pkt : M8DataPacket) : bool :=
  forallb (fun i => position pkt i <=? M8_NUM_ROT_ANGLES)
          (upto (Z.to_nat M8_FIRING_PER_PKT) 0).

(** A packet whose positions are 0, 1, ..., 49. *)
Definition ramp_packet : M8DataPacket :=
  packet_of (ramp 0 1) 1234 77 1400000000 123456789.

(** ** Definitions for the further properties *)

(** The client after a push the full queue has refused: one more drop,
    and a line when the count is a power of two. *)
Definition refused (c : M8Client) : M8Client :=
  let c1 := set_dropped (dropped_packets_ c + 1) c in
  if Z.land (dropped_packets_ c + 1) (dropped_packets_ c) =? 0
  then print (Dropped_total (dropped_packets_ c + 1)) c1
  else c1.

(** A client whose queue holds 1001 buffers: the next push is refused. *)
Definition full_client : M8Client :=
  set_queue (repeat packet_sized 1001) (M8Client_new 0 0).

(** The lines [n] refused pushes print, starting from a drop count of 0:
    one at each power of two, 1, 2, 4, ... up to [n]. *)
Definition drop_lines (n : Z) : list message :=
  map (fun k => Dropped_total (2 ^ k)) (upto (Z.to_nat (Z.log2_up (n + 1))) 0).

(** The receive buffer of [read]: 8000 bytes. *)
Definition receive_buffer : list byte := repeat x00 (Z.to_nat 8000).

(** *** [M8Client::read]

    What a call of [boost::asio::read] on the socket gives: the bytes
    that fill the buffer, or a [boost::system::system_error] with its
    code. *)
Inductive read_result : Type :=
  | Received (bytes : list byte)
  | Read_error (code : Z).

(** The bytes received overwrite the first bytes of the array [data]. *)
Definition receive (received data : list byte) : list byte :=
  received ++ skipn (length received) data.

(** The loop of [read], run on the results of its successive calls of
    [boost::asio::read]; the socket is open as long as the thread runs.
    The result is the client when the results are used up or the loop
    has ended, with the codes of the errors whose message was printed
    on [std::cerr]. *)
Fixpoint read (reads : list read_result) (data : list byte) (c : M8Client)
    : outcome (M8Client * list Z) :=
  match reads with
  | [] => Ok (c, [])
  | result :: rest =>
      if terminate_read_packet_thread_ c then Ok (c, [])
      else
        match result with
        | Received bytes =>
            let data := receive bytes data in
            c' <- enqueueM8Packet data (Z.of_nat (length bytes)) c ;;
            read rest data c'
        | Read_error code =>
            r <- read rest data (set_terminate true c) ;;
            Ok (fst r, code :: snd r)
        end
  end.

(** A cloud of eleven points, numbered by their [x], not dense. *)
Definition eleven_points : PointCloud :=
  mkCloud 5 6
    (map (fun k => mkPoint (Single.of_Z (Z.of_nat k)) (S754_zero false)
                           (S754_zero false) (S754_zero false)) (seq 0 11))
    11 1 false.

Section Run.

Variables std_cos std_sin : spec_float -> spec_float.

(** The state after the firings whose indices are listed, when all
    their lookups are in bounds. *)
Definition after_firings (pkt : M8DataPacket) (time dir : Z) (indices : list Z)
    (c : M8Client) : M8Client :=
  fold_left (fun c i => after_firing std_cos std_sin pkt time dir i c) indices c.

(** The points of a packet in the order of its firings, for the value
    [scan_counter] of the scan counter. *)
Definition packet_points (pkt : M8DataPacket) (scan_counter : Z) : list PointXYZI :=
  concat (map (fun i => firing_points std_cos std_sin pkt i
                          (firing_position pkt scan_counter i))
              (upto (Z.to_nat M8_FIRING_PER_PKT) 0)).

End Run.

(** All the points a client has passed to its slots or still holds. *)
Definition all_points (c : M8Client) : list PointXYZI :=
  concat (map points (fired c)) ++ points (current_sweep_xyzi_ c).

(** What holds of a sweep fired while the packet captured at [time] is
    processed. *)
Definition fired_at (time : Z) (sweep : PointCloud) : Prop :=
  header_stamp sweep = time
  /\ height sweep = 8
  /\ size sweep = 8 * width sweep
  /\ is_dense sweep = true.

(** The sweeps are numbered from 0 in the order in which they are fired. *)
Definition numbered (c : M8Client) : Prop :=
  map header_seq (fired c) = map uint32 (upto (length (fired c)) 0)
  /\ sweep_counter_ c = uint32 (Z.of_nat (length (fired c))).

(** Two packets give [toPointClouds] the same fields: the positions, the
    distances and intensities of return 0, and the capture time. *)
Definition same_fields (p q : M8DataPacket) : bool :=
  forallb
    (fun i =>
       (position p i =? position q i)
       && forallb
            (fun j =>
               (returns_distances p i 0 j =? returns_distances q i 0 j)
               && (returns_intensities p i 0 j =? returns_intensities q i 0 j))
            (upto (Z.to_nat M8_NUM_LASERS) 0))
    (upto (Z.to_nat M8_FIRING_PER_PKT) 0)
  && (seconds p =? seconds q)
  && (nanoseconds p =? nanoseconds q).

(** One [M8FiringData] with its own padding, returns 1 and 2 and status. *)
Definition firing_with (pos padding distance0 distance_rest intens0 intens_rest status : Z)
    : list byte :=
  le_bytes 2 pos ++ le_bytes 2 padding
  ++ concat (repeat (le_bytes 4 distance0) 8)
  ++ concat (repeat (le_bytes 4 distance_rest) 16)
  ++ repeat (byte_of_Z intens0) 8
  ++ repeat (byte_of_Z intens_rest) 16
  ++ repeat (byte_of_Z status) 8.

(** [ramp_packet] with other values in the padding, the returns 1 and 2,
    the status bytes and the status word. *)
Definition noisy_ramp_packet : M8DataPacket :=
  concat (map (fun p => firing_with p 513 1234 999999 77 200 255) (ramp 0 1))
  ++ le_bytes 4 1400000000 ++ le_bytes 4 123456789 ++ le_bytes 4 4294967295.

(** The position shifted by half a turn, as [azimuth_angle] reduces it. *)
Definition wrapped (pos : Z) : Z :=
  (pos + M8_NUM_ROT_ANGLES / 2) mod M8_NUM_ROT_ANGLES.

(** The angle in degrees of a shifted position. *)
Definition wrapped_azimuth (k : Z) : spec_float :=
  Double.sub
    (Double.mul (Double.div (Double.of_Z k) (Double.of_Z M8_NUM_ROT_ANGLES)) lit_360)
    lit_180.

(** [direction * azimuth_angle] at a shifted position. *)
Definition signed_azimuth (dir : Z) (k : Z) : spec_float :=
  Double.mul (Double.of_Z dir) (wrapped_azimuth k).

(** One pass over the shifted positions [k], ..., [k + n]: from each to
    the next the azimuth rises, its product by +1 rises and its product
    by -1 falls.  [a], [f] and [b] are the three values at [k]. *)
Fixpoint azimuth_chains (n : nat) (k : Z) (a f b : spec_float) : bool :=
  match n with
  | O => true
  | S n' =>
      let a' := wrapped_azimuth (k + 1) in
      let f' := Double.mul (Double.of_Z 1) a' in
      let b' := Double.mul (Double.of_Z (-1)) a' in
      SFltb a a' && SFltb f f' && SFltb b' b && azimuth_chains n' (k + 1) a' f' b'
  end.

(** From firing to firing the packet never steps back against its
    direction: the shifted positions do not fall when the direction is
    +1 and do not rise when it is -1. *)
Definition advancing (pkt : M8DataPacket) : bool :=
  forallb
    (fun i =>
       if direction pkt =? 1
       then wrapped (position pkt (i - 1)) <=? wrapped (position pkt i)
       else wrapped (position pkt i) <=? wrapped (position pkt (i - 1)))
    (upto 49 1).

(** A packet whose positions are 5000, 4990, ..., 4510. *)
Definition falling_packet : M8DataPacket :=
  packet_of (ramp 5000 (-10)) 1234 77 1400000000 123456789.

(** * Properties *)

(** The literal [.01] is the quotient 1 / 100, correctly rounded. *)
Example lit_0_01_rounds : Double.div (Double.of_Z 1) (Double.of_Z 100) = lit_0_01.
Proof. reflexivity. Qed.

(** ** Rounding never produces a NaN *)

Section Rounding.

Variables prec emax : Z.

Lemma shr_1_nonneg (mrs : shr_record) :
  0 <= shr_m mrs -> 0 <= shr_m (shr_1 mrs).
Proof.
  destruct mrs as [m r s]; simpl.
  destruct m as [|p|p]; [| destruct p | destruct p]; simpl; lia.
Qed.

Lemma iter_shr_1_nonneg (n : positive) :
  forall mrs, 0 <= shr_m mrs -> 0 <= shr_m (iter_pos shr_1 n mrs).
Proof.
  induction n as [n IH|n IH|]; simpl; intros mrs H.
  - apply IH, IH, shr_1_nonneg, H.
  - apply IH, IH, H.
  - apply shr_1_nonneg, H.
Qed.

Lemma shr_fexp_nonneg (m e : Z) (l : location) :
  0 <= m -> 0 <= shr_m (fst (shr_fexp prec emax m e l)).
Proof.
  intros H. unfold shr_fexp, shr.
  assert (H0 : 0 <= shr_m (shr_record_of_loc m l))
    by (destruct l as [|[]]; exact H).
  destruct (fexp prec emax (Zdigits2 m + e) - e); simpl; auto.
  apply iter_shr_1_nonneg, H0.
Qed.

Lemma round_nearest_even_nonneg (m : Z) (l : location) :
  0 <= m -> 0 <= round_nearest_even m l.
Proof.
  intros H. destruct l as [|[]]; simpl; try lia.
  destruct (Z.even m); lia.
Qed.

Lemma binary_round_aux_not_nan (s : bool) (m e : Z) (l : location) :
  0 <= m -> isnan (binary_round_aux prec emax s m e l) = false.
Proof.
  intros H. unfold binary_round_aux.
  pose proof (shr_fexp_nonneg e l H) as H1.
  destruct (shr_fexp prec emax m e l) as [mrs' e']. simpl in H1.
  pose proof (round_nearest_even_nonneg (loc_of_shr_record mrs') H1) as H2.
  pose proof (shr_fexp_nonneg e' loc_Exact H2) as H3.
  destruct (shr_fexp prec emax _ e' loc_Exact) as [mrs'' e'']. simpl in H3.
  destruct (shr_m mrs'') as [|p|p]; try reflexivity.
  - destruct (e'' <=? emax - prec); reflexivity.
  - lia.
Qed.

Lemma binary_round_not_nan (s : bool) (m : positive) (e : Z) :
  isnan (binary_round prec emax s m e) = false.
Proof.
  unfold binary_round.
  destruct (shl_align m e _) as [mz ez].
  apply binary_round_aux_not_nan. lia.
Qed.

Lemma binary_normalize_not_nan (m e : Z) (sz : bool) :
  isnan (binary_normalize prec emax m e sz) = false.
Proof.
  destruct m; simpl; auto using binary_round_not_nan.
Qed.

(** A product with a finite factor is a NaN only if the other factor is. *)
Lemma SFmul_finite_not_nan (v : spec_float) (s : bool) (m : positive) (e : Z) :
  isnan v = false -> isnan (SFmul prec emax v (S754_finite s m e)) = false.
Proof.
  destruct v; simpl; intros H; try reflexivity; try discriminate.
  apply binary_round_aux_not_nan. lia.
Qed.

End Rounding.

Lemma Single_of_double_not_nan (d : spec_float) :
  isnan d = false -> isnan (Single.of_double d) = false.
Proof.
  destruct d; simpl; auto. intros _. apply binary_round_not_nan.
Qed.

Lemma Double_of_single_not_nan (f : spec_float) :
  isnan f = false -> isnan (Double.of_single f) = false.
Proof.
  destruct f; simpl; auto. intros _. apply binary_round_not_nan.
Qed.

(** The range of a sample is never a NaN, whatever the distance word. *)
Lemma range_of_not_nan (distance : Z) : isnan (range_of distance) = false.
Proof.
  unfold range_of. apply Single_of_double_not_nan.
  unfold Double.mul, lit_0_01. apply SFmul_finite_not_nan.
  apply binary_normalize_not_nan.
Qed.

(** ** [organizeCloud] *)

Lemma uint32_small (n : Z) : 0 <= n < 2 ^ 32 -> uint32 n = n.
Proof. intros H. unfold uint32. apply Z.mod_small, H. Qed.

Lemma uint32_le (n : Z) : 0 <= n -> 0 <= uint32 n <= n.
Proof.
  intros H. unfold uint32. split.
  - apply Z.mod_pos_bound. reflexivity.
  - apply Z.mod_le; [exact H | reflexivity].
Qed.

Lemma temp_index_le (i j : nat) : (temp_index_of i j <= j * 8 + i)%nat.
Proof.
  unfold temp_index_of, temp_index, M8_NUM_LASERS. cbn [Z.eqb Pos.eqb].
  pose proof (uint32_le (n := Z.of_nat j * 8) ltac:(lia)) as H1.
  pose proof (uint32_le (n := uint32 (Z.of_nat j * 8) + Z.of_nat i) ltac:(lia)) as H2.
  lia.
Qed.

Lemma temp_index_exact (i j : nat) :
  Z.of_nat (j * 8 + i) < 2 ^ 32 -> temp_index_of i j = (j * 8 + i)%nat.
Proof.
  intros H. unfold temp_index_of, temp_index, M8_NUM_LASERS. cbn [Z.eqb Pos.eqb].
  rewrite (uint32_small (n := Z.of_nat j * 8)) by lia.
  rewrite uint32_small by lia. lia.
Qed.

(** The inner loop, started at firing [j0] for [n] firings whose slots
    all exist, appends the points at those slots and changes neither the
    header nor the dense flag. *)
Lemma organize_inner (c : PointCloud) (i : nat) (n : nat) :
  forall (j0 : nat) (temp : PointCloud),
    (forall j, (j0 <= j < j0 + n)%nat -> (temp_index_of i j < length (points c))%nat) ->
    exists temp',
      for_up n (Z.of_nat j0)
        (fun j t =>
           pt <- at_ c (temp_index (Z.of_nat i) j) ;;
           Ok (push_back pt t)) temp = Ok temp'
      /\ points temp' = points temp
           ++ map (fun j => nth (temp_index_of i j) (points c) PointXYZI_default)
                  (seq j0 n)
      /\ header_stamp temp' = header_stamp temp
      /\ header_seq temp' = header_seq temp
      /\ is_dense temp' = is_dense temp.
Proof.
  induction n as [|n IH]; intros j0 temp Hin.
  - exists temp. simpl. rewrite app_nil_r. auto.
  - assert (Hj0 : (temp_index_of i j0 < length (points c))%nat) by (apply Hin; lia).
    destruct (IH (S j0) (push_back (nth (temp_index_of i j0) (points c) PointXYZI_default) temp))
      as (temp' & Hrun & Hpts & Hst & Hsq & Hd).
    { intros j Hj. apply Hin. lia. }
    exists temp'. split; [|split; [|auto]].
    + cbn [for_up bind]. unfold at_.
      fold (temp_index_of i j0).
      rewrite (nth_error_nth' _ PointXYZI_default Hj0). cbn [bind].
      replace (Z.of_nat j0 + 1) with (Z.of_nat (S j0)) by lia. exact Hrun.
    + rewrite Hpts. cbn [push_back points seq map]. rewrite <- app_assoc. reflexivity.
Qed.

Lemma width_bound (c : PointCloud) :
  (8 * Z.to_nat (uint32 (size c / M8_NUM_LASERS)) <= length (points c))%nat.
Proof.
  unfold size, M8_NUM_LASERS.
  pose proof (uint32_le (n := Z.of_nat (length (points c)) / 8)
                ltac:(apply Z.div_pos; lia)) as H.
  pose proof (Z.mul_div_le (Z.of_nat (length (points c))) 8 ltac:(lia)).
  lia.
Qed.

(** The outer loop over the lasers [k - 1], ..., [0]. *)
Lemma organize_outer (c : PointCloud) (k : nat) :
  (k <= 8)%nat ->
  forall temp : PointCloud,
  exists temp',
    for_down k (Z.of_nat k - 1)
      (organize_ring c (uint32 (size c / M8_NUM_LASERS))) temp = Ok temp'
    /\ points temp' = points temp
         ++ concat (map (collected (points c) (Z.to_nat (uint32 (size c / M8_NUM_LASERS))))
                        (rev (seq 0 k)))
    /\ header_stamp temp' = header_stamp temp
    /\ header_seq temp' = header_seq temp
    /\ is_dense temp' = is_dense temp.
Proof.
  induction k as [|k IH]; intros Hk temp.
  - exists temp. simpl. rewrite app_nil_r. auto.
  - destruct (@organize_inner c k (Z.to_nat (uint32 (size c / M8_NUM_LASERS))) 0%nat temp)
      as (t1 & Hrun1 & Hpts1 & Hst1 & Hsq1 & Hd1).
    { intros j Hj. pose proof (temp_index_le k j). pose proof (width_bound c). lia. }
    destruct (IH ltac:(lia) t1) as (t2 & Hrun2 & Hpts2 & Hst2 & Hsq2 & Hd2).
    exists t2. split; [|split; [|repeat split; congruence]].
    + cbn [for_down]. replace (Z.of_nat (S k) - 1) with (Z.of_nat k) by lia.
      unfold organize_ring at 1. change (Z.of_nat 0) with 0 in Hrun1.
      rewrite Hrun1. cbn [bind]. exact Hrun2.
    + rewrite Hpts2, Hpts1. rewrite seq_S, rev_app_distr. cbn [rev app map concat Nat.add].
      rewrite <- app_assoc. reflexivity.
Qed.

(** [organizeCloud] always returns: every slot it reads exists.  The
    result is a new cloud (default header, dense) that lists, for the
    lasers top down, the points collected for the laser. *)
Lemma organizeCloud_returns (c : PointCloud) :
  organizeCloud c =
    Ok (mkCloud 0 0
          (concat (map (collected (points c) (Z.to_nat (uint32 (size c / M8_NUM_LASERS))))
                       lasers_top_down))
          (uint32 (size c / M8_NUM_LASERS)) M8_NUM_LASERS true).
Proof.
  unfold organizeCloud.
  destruct (@organize_outer c 8 ltac:(lia) new_PointCloud)
    as (t & Hrun & Hpts & Hst & Hsq & Hd).
  change (Z.to_nat M8_NUM_LASERS) with 8%nat.
  change (M8_NUM_LASERS - 1) with (Z.of_nat 8 - 1).
  rewrite Hrun. cbn [bind]. unfold set_dims.
  rewrite Hpts, Hst, Hsq, Hd. reflexivity.
Qed.

(** With at most 2^32 points no index wraps: the points collected for a
    laser are its ring. *)
Lemma collected_ring (sweep : list PointXYZI) (w i : nat) :
  Z.of_nat (length sweep) <= 2 ^ 32 -> (8 * w <= length sweep)%nat -> (i < 8)%nat ->
  collected sweep w i = ring sweep w i.
Proof.
  intros Hlen Hw Hi. unfold collected, ring.
  apply map_ext_in. intros j Hj. apply in_seq in Hj.
  rewrite temp_index_exact by lia. reflexivity.
Qed.

Lemma lasers_top_down_lt (i : nat) : In i lasers_top_down -> (i < 8)%nat.
Proof.
  unfold lasers_top_down. rewrite <- in_rev, in_seq. lia.
Qed.

Section RingOrder.

Variable A : Type.

(** Taking the heads out of a concatenation permutes it. *)
Lemma concat_heads (f : nat -> A) (g : nat -> list A) (L : list nat) :
  Permutation (concat (map (fun i => f i :: g i) L)) (map f L ++ concat (map g L)).
Proof.
  induction L as [|i L IH]; simpl.
  - constructor.
  - constructor. rewrite IH.
    rewrite !app_assoc. apply Permutation_app_tail, Permutation_app_comm.
Qed.

End RingOrder.

(** The ring of a laser in a sweep of [w + 1] firings: the sample of the
    first firing, then the ring in the other [w] firings. *)
Lemma ring_step (first rest : list PointXYZI) (w i : nat) :
  length first = 8%nat ->
  ring (first ++ rest) (S w) i
  = nth i (first ++ rest) PointXYZI_default :: ring rest w i.
Proof.
  intros Hf. unfold ring. cbn [seq map Nat.mul Nat.add]. f_equal.
  rewrite <- seq_shift, map_map. apply map_ext. intros j.
  replace (S j * 8 + i)%nat with (length first + (j * 8 + i))%nat by lia.
  apply app_nth2_plus.
Qed.

Lemma ring_order_permutation (w : nat) :
  forall sweep : list PointXYZI,
    length sweep = (8 * w)%nat -> Permutation (ring_order sweep w) sweep.
Proof.
  induction w as [|w IH]; intros sweep Hlen.
  - destruct sweep; [|discriminate]. vm_compute. constructor.
  - destruct sweep as [|a0 [|a1 [|a2 [|a3 [|a4 [|a5 [|a6 [|a7 rest]]]]]]]];
      try (simpl in Hlen; lia).
    assert (Hrest : length rest = (8 * w)%nat) by (simpl in Hlen; lia).
    change (a0 :: a1 :: a2 :: a3 :: a4 :: a5 :: a6 :: a7 :: rest)
      with ([a0; a1; a2; a3; a4; a5; a6; a7] ++ rest).
    unfold ring_order.
    rewrite (map_ext _ _ (fun i => ring_step [a0; a1; a2; a3; a4; a5; a6; a7] rest w i eq_refl)).
    rewrite concat_heads.
    apply Permutation_app.
    + unfold lasers_top_down. rewrite map_rev. symmetry. apply Permutation_rev.
    + apply IH, Hrest.
Qed.

Section Blocks.

Variable A : Type.
Variable d : A.

(** The entry [k * w + j] of a concatenation of blocks of length [w] is
    entry [j] of block [k]. *)
Lemma nth_concat_blocks (g : nat -> list A) (w : nat) (L : list nat) :
  (forall i, length (g i) = w) ->
  forall k j, (k < length L)%nat -> (j < w)%nat ->
    nth (k * w + j) (concat (map g L)) d = nth j (g (nth k L 0%nat)) d.
Proof.
  intros Hlen. induction L as [|a L IH]; intros k j Hk Hj; cbn [length] in Hk.
  - lia.
  - cbn [map concat]. destruct k as [|k].
    + cbn [Nat.mul Nat.add nth]. apply app_nth1. rewrite Hlen. exact Hj.
    + replace (S k * w + j)%nat with (length (g a) + (k * w + j))%nat
        by (rewrite Hlen; lia).
      rewrite app_nth2_plus. cbn [nth]. apply IH; lia.
Qed.

End Blocks.

Lemma ring_length (sweep : list PointXYZI) (w i : nat) : length (ring sweep w i) = w.
Proof. unfold ring. rewrite length_map, length_seq. reflexivity. Qed.

(** In ring order the sample of laser [i] and firing [j] sits in row
    [7 - i], column [j], and is the input at index [j * 8 + i]. *)
Lemma ring_order_nth (sweep : list PointXYZI) (w i j : nat) :
  (i < 8)%nat -> (j < w)%nat ->
  nth ((7 - i) * w + j) (ring_order sweep w) PointXYZI_default
  = nth (j * 8 + i) sweep PointXYZI_default.
Proof.
  intros Hi Hj. unfold ring_order.
  rewrite (nth_concat_blocks PointXYZI_default (ring sweep w) (w := w));
    [|apply ring_length|unfold lasers_top_down; rewrite length_rev, length_seq; lia|exact Hj].
  replace (nth (7 - i) lasers_top_down 0%nat) with i.
  - unfold ring.
    rewrite (nth_indep _ PointXYZI_default
               (nth (0 * 8 + i) sweep PointXYZI_default))
      by (rewrite length_map, length_seq; exact Hj).
    rewrite (map_nth (fun firing => nth (firing * 8 + i) sweep PointXYZI_default)
               (seq 0 w) 0%nat j).
    rewrite seq_nth by exact Hj. reflexivity.
  - do 8 (destruct i as [|i]; [reflexivity|]). lia.
Qed.

(** C2 (as amended).  For every sweep whose length is divisible by 8 and
    at most 2^32, [organizeCloud] returns a cloud of the same length
    whose points are a permutation of the input, in ring order (lasers
    from 7 down to 0, firings in order, the sample of laser [i] and
    firing [j] being the input at index [j * 8 + i] and sitting in row
    [7 - i], column [j]), with 8 rows and length / 8 columns. *)
Theorem organizeCloud_ring_order (c : PointCloud) :
  size c mod 8 = 0 ->
  size c <= 2 ^ 32 ->
  exists organized,
    organizeCloud c = Ok organized
    /\ length (points organized) = length (points c)
    /\ Permutation (points organized) (points c)
    /\ points organized = ring_order (points c) (Z.to_nat (size c / 8))
    /\ (forall i j : nat,
          (i < 8)%nat -> Z.of_nat j < size c / 8 ->
          nth ((7 - i) * Z.to_nat (size c / 8) + j) (points organized) PointXYZI_default
          = nth (j * 8 + i) (points c) PointXYZI_default)
    /\ height organized = 8
    /\ width organized = size c / 8.
Proof.
  intros Hmod Hsize.
  assert (Hpos : 0 <= size c) by (unfold size; lia).
  assert (Hdiv : size c = 8 * (size c / 8)) by (apply Z.div_exact; [lia | exact Hmod]).
  assert (Hw : uint32 (size c / M8_NUM_LASERS) = size c / 8).
  { unfold M8_NUM_LASERS. apply uint32_small. lia. }
  assert (Hlen : length (points c) = (8 * Z.to_nat (size c / 8))%nat)
    by (unfold size in *; lia).
  assert (Hring : concat (map (collected (points c) (Z.to_nat (size c / 8))) lasers_top_down)
                  = ring_order (points c) (Z.to_nat (size c / 8))).
  { unfold ring_order. f_equal. apply map_ext_in. intros i Hi.
    apply collected_ring; [exact Hsize | lia | apply lasers_top_down_lt, Hi]. }
  rewrite organizeCloud_returns, Hw, Hring.
  pose proof (@ring_order_permutation _ (points c) Hlen) as Hperm.
  eexists. split; [reflexivity|]. cbn [points height width].
  split; [apply Permutation_length, Hperm|].
  split; [exact Hperm|]. split; [reflexivity|].
  split; [|split; reflexivity].
  intros i j Hi Hj. apply ring_order_nth; lia.
Qed.

Lemma organizeCloud_ring_order_witness :
  exists organized,
    organizeCloud two_firings = Ok organized
    /\ length (points organized) = length (points two_firings)
    /\ Permutation (points organized) (points two_firings)
    /\ points organized = ring_order (points two_firings) (Z.to_nat (size two_firings / 8))
    /\ (forall i j : nat,
          (i < 8)%nat -> Z.of_nat j < size two_firings / 8 ->
          nth ((7 - i) * Z.to_nat (size two_firings / 8) + j) (points organized)
              PointXYZI_default
          = nth (j * 8 + i) (points two_firings) PointXYZI_default)
    /\ height organized = 8
    /\ width organized = size two_firings / 8.
Proof.
  apply organizeCloud_ring_order.
  - reflexivity.
  - vm_compute. discriminate.
Defined.

(** C2, as stated, fails on a sweep of 2^35 points (a multiple of 8):
    the [unsigned int] width is 2^32 truncated to 0, no point is copied
    and the cloud that comes back is empty. *)
Lemma organizeCloud_huge_sweep_empty :
  size huge_sweep = 2 ^ 35
  /\ size huge_sweep mod 8 = 0
  /\ exists organized,
       organizeCloud huge_sweep = Ok organized
       /\ points organized = []
       /\ length (points organized) <> length (points huge_sweep).
Proof.
  assert (Hsize : size huge_sweep = 2 ^ 35).
  { unfold size, huge_sweep. cbn [points]. rewrite repeat_length.
    apply Z2Nat.id. apply Z.pow_nonneg. lia. }
  split; [exact Hsize|]. split; [rewrite Hsize; reflexivity|].
  exists (mkCloud 0 0 [] 0 8 true). split; [|split].
  - rewrite organizeCloud_returns, Hsize.
    change (uint32 (2 ^ 35 / M8_NUM_LASERS)) with 0.
    generalize (points huge_sweep). intros pts. reflexivity.
  - reflexivity.
  - cbn [points length]. intros H.
    assert (H0 : size huge_sweep = 0) by (unfold size; rewrite <- H; reflexivity).
    rewrite Hsize in H0. discriminate H0.
Qed.

(** ** [computeXYZ] *)

(** C3.  [computeXYZ] gives x = y = z = NaN for a NaN range; otherwise
    it stores in the point (as floats) the values
    xyDistance = range * cosV - sinV, y = xyDistance * sinH,
    x = xyDistance * cosH and z = range * sinV + cosV, offsets included:
    a horizontal beam (cosV = 1, sinV = 0) of range 10 along the x axis
    lands at x = 10, y = 0, z = 1. *)
Theorem computeXYZ_formula :
  (forall range cosH sinH cosV sinV point,
     computeXYZ range cosH sinH cosV sinV point =
       if isnan range then
         mkPoint S754_nan S754_nan S754_nan (intensity point)
       else
         mkPoint (Single.of_double (spec_x range cosH sinH cosV sinV))
                 (Single.of_double (spec_y range cosH sinH cosV sinV))
                 (Single.of_double (spec_z range cosH sinH cosV sinV))
                 (intensity point))
  /\ computeXYZ d10 d1 d0 d1 d0 PointXYZI_default
     = mkPoint (Single.of_Z 10) (Single.of_Z 0) (Single.of_Z 1) (S754_zero false).
Proof.
  split.
  - intros range cosH sinH cosV sinV point. unfold computeXYZ.
    destruct (isnan range); reflexivity.
  - vm_compute. reflexivity.
Qed.

(** ** Spin direction *)

Lemma direction_closed_form (pkt : M8DataPacket) :
  spin pkt = true ->
  direction pkt
  = if 4000 <? Z.abs (position pkt 0 - position pkt (M8_FIRING_PER_PKT - 1))
    then 1 else -1.
Proof.
  intros Hspin. unfold direction. rewrite Hspin.
  set (d := position pkt 0 - position pkt (M8_FIRING_PER_PKT - 1)).
  replace (position pkt (M8_FIRING_PER_PKT - 1) - position pkt 0) with (- d)
    by (unfold d; lia).
  destruct (Z.gtb_spec d 0), (Z.gtb_spec d 4000), (Z.gtb_spec (- d) 4000),
    (Z.ltb_spec 4000 (Z.abs d)); try reflexivity; lia.
Qed.

(** The one packet the claim names: first position 10399, last
    position 2; it is spinning and its direction is +1. *)
Lemma direction_wrapping (pkt : M8DataPacket) :
  position pkt 0 = 10399 -> position pkt 49 = 2 ->
  spin pkt = true /\ direction pkt = 1.
Proof.
  intros H0 H49.
  assert (Hspin : spin pkt = true).
  { unfold spin. change (M8_FIRING_PER_PKT - 1) with 49. rewrite H0, H49. reflexivity. }
  split; [exact Hspin|].
  rewrite (direction_closed_form pkt Hspin).
  change (M8_FIRING_PER_PKT - 1) with 49. rewrite H0, H49. reflexivity.
Qed.

(** C4.  The direction does not follow the sign of the delta between
    the first and the last position.  A packet whose positions rise
    from 0 to 49 (delta -49) and a packet whose positions fall from 5000
    to 4510 (delta 490) are both spinning and both get direction -1;
    the packet that goes from 10399 to 2 (delta 10397) gets +1.  The
    branch for a delta that is not positive repeats the other branch
    instead of mirroring it. *)
Theorem direction_ignores_delta_sign :
  (spin ramp_packet = true
   /\ position ramp_packet 0 - position ramp_packet 49 = -49
   /\ direction ramp_packet = -1)
  /\ (spin falling_packet = true
      /\ position falling_packet 0 - position falling_packet 49 = 490
      /\ direction falling_packet = -1)
  /\ (spin wrapping_packet = true
      /\ position wrapping_packet 0 - position wrapping_packet 49 = 10397
      /\ direction wrapping_packet = 1).
Proof.
  vm_compute. repeat split; reflexivity.
Qed.

(** ** The packet queue *)

Lemma push_packet_sized (data : list byte) (c : M8Client) :
  Z.of_nat (length data) = M8_PACKET_BYTES ->
  (length (data_queue_ c) <= 1000)%nat ->
  push data c = Ok (set_queue (data_queue_ c ++ [data]) c).
Proof.
  intros Hlen Hq. unfold push, enqueueM8Packet.
  rewrite Hlen, Z.eqb_refl.
  destruct (Z.gtb_spec (Z.of_nat (length (data_queue_ c))) 1000) as [Hgt|_]; [lia|].
  rewrite <- Hlen, Nat2Z.id, firstn_all. reflexivity.
Qed.

(** A push the full queue refuses counts one more drop, unless the
    counter already holds [INT_MAX]. *)
Lemma push_full (data : list byte) (c : M8Client) :
  Z.of_nat (length data) = M8_PACKET_BYTES ->
  (1000 < length (data_queue_ c))%nat ->
  push data c
  = if dropped_packets_ c <? INT_MAX then Ok (refused c) else Undefined_behaviour.
Proof.
  intros Hlen Hq. unfold push, enqueueM8Packet, refused.
  rewrite Hlen, Z.eqb_refl.
  destruct (Z.gtb_spec (Z.of_nat (length (data_queue_ c))) 1000) as [_|Hle]; [|lia].
  destruct (dropped_packets_ c <? INT_MAX); [|reflexivity].
  cbn [set_dropped dropped_packets_].
  replace (dropped_packets_ c + 1 - 1) with (dropped_packets_ c) by lia.
  destruct (Z.land _ _ =? 0); reflexivity.
Qed.

Lemma refused_fields (c : M8Client) :
  data_queue_ (refused c) = data_queue_ c
  /\ dropped_packets_ (refused c) = dropped_packets_ c + 1
  /\ terminate_read_packet_thread_ (refused c) = terminate_read_packet_thread_ c
  /\ printed (refused c)
     = printed c
       ++ (if Z.land (dropped_packets_ c + 1) (dropped_packets_ c) =? 0
           then [Dropped_total (dropped_packets_ c + 1)] else []).
Proof.
  unfold refused. destruct (Z.land _ _ =? 0); cbn; repeat split.
  rewrite app_nil_r. reflexivity.
Qed.

(** Queue and drops after pushes of packet-sized buffers into a queue
    of depth at most 1001, as long as the counter can count the drops:
    the queue takes buffers up to depth 1001 and the rest is dropped. *)
Lemma push_all_counts (buffers : list (list byte)) :
  Forall (fun data => Z.of_nat (length data) = M8_PACKET_BYTES) buffers ->
  forall c : M8Client,
    (length (data_queue_ c) <= 1001)%nat ->
    dropped_packets_ c
    + Z.of_nat (length buffers - (1001 - length (data_queue_ c))) <= INT_MAX ->
    exists c',
      push_all buffers c = Ok c'
      /\ data_queue_ c'
         = data_queue_ c ++ firstn (1001 - length (data_queue_ c)) buffers
      /\ dropped_packets_ c'
         = dropped_packets_ c
           + Z.of_nat (length buffers - (1001 - length (data_queue_ c))).
Proof.
  induction 1 as [|data buffers Hdata _ IH]; intros c Hq Hroom.
  - exists c. cbn [push_all length]. rewrite firstn_nil, app_nil_r.
    repeat split. cbn. lia.
  - cbn [push_all].
    destruct (Nat.le_gt_cases (length (data_queue_ c)) 1000) as [Hle|Hgt].
    + rewrite (push_packet_sized data c Hdata Hle). cbn [bind].
      set (c1 := set_queue (data_queue_ c ++ [data]) c).
      assert (Hq1 : length (data_queue_ c1) = S (length (data_queue_ c))).
      { unfold c1. cbn [set_queue data_queue_]. rewrite length_app. cbn [length]. lia. }
      assert (Hd1 : dropped_packets_ c1 = dropped_packets_ c) by reflexivity.
      cbn [length] in Hroom.
      destruct (IH c1) as (c' & Hrun & Hqueue & Hdrop).
      { lia. }
      { rewrite Hq1, Hd1.
        replace (length buffers - (1001 - S (length (data_queue_ c))))%nat
          with (S (length buffers) - (1001 - length (data_queue_ c)))%nat by lia.
        exact Hroom. }
      exists c'. split; [exact Hrun|]. split.
      * rewrite Hqueue, Hq1. unfold c1. cbn [set_queue data_queue_].
        replace (1001 - length (data_queue_ c))%nat
          with (S (1001 - S (length (data_queue_ c))))%nat by lia.
        cbn [firstn]. rewrite <- app_assoc. reflexivity.
      * rewrite Hdrop, Hq1, Hd1. cbn [length]. f_equal. f_equal. lia.
    + rewrite (push_full data c Hdata Hgt).
      cbn [length] in Hroom.
      replace (1001 - length (data_queue_ c))%nat with 0%nat in * by lia.
      rewrite Nat.sub_0_r in Hroom.
      destruct (Z.ltb_spec (dropped_packets_ c) INT_MAX) as [_|Hfull]; [|lia].
      cbn [bind].
      destruct (refused_fields c) as (Hq1 & Hd1 & _).
      destruct (IH (refused c)) as (c' & Hrun & Hqueue & Hdrop).
      { rewrite Hq1. exact Hq. }
      { rewrite Hq1, Hd1.
        replace (1001 - length (data_queue_ c))%nat with 0%nat by lia. lia. }
      rewrite !Hq1 in Hqueue. rewrite Hq1, Hd1 in Hdrop.
      replace (1001 - length (data_queue_ c))%nat with 0%nat in * by lia.
      exists c'. split; [exact Hrun|]. split.
      * rewrite Hqueue. reflexivity.
      * rewrite Hdrop. cbn [length]. lia.
Qed.

Lemma Forall_prefix (A : Type) (P : A -> Prop) (l : list A) (n : nat) :
  Forall P l -> Forall P (firstn n l).
Proof.
  intros H. apply Forall_forall. intros a Hin.
  rewrite Forall_forall in H. apply H. apply (In_nth _ _ a) in Hin.
  destruct Hin as (k & Hk & <-). rewrite length_firstn in Hk.
  rewrite nth_firstn.
  destruct (Nat.ltb_spec k n); [apply nth_In|]; lia.
Qed.

(** C5 (as amended).  Starting from an empty queue, pushing more than
    1000 packet-sized buffers with no pop in between results in exactly
    pushed minus 1001 drops, and the depth never exceeds 1001: a push is
    refused only when the depth is above 1000.  The drops are counted
    in an [int]: the count has to stay within [INT_MAX]. *)
Theorem queue_overflow_drops (buffers : list (list byte)) (c : M8Client) :
  data_queue_ c = [] ->
  Forall (fun data => Z.of_nat (length data) = M8_PACKET_BYTES) buffers ->
  (1000 < length buffers)%nat ->
  dropped_packets_ c + (Z.of_nat (length buffers) - 1001) <= INT_MAX ->
  (exists c',
     push_all buffers c = Ok c'
     /\ dropped_packets_ c' = dropped_packets_ c + (Z.of_nat (length buffers) - 1001)
     /\ length (data_queue_ c') = 1001%nat)
  /\ forall n,
       exists cn,
         push_all (firstn n buffers) c = Ok cn
         /\ (length (data_queue_ cn) <= 1001)%nat.
Proof.
  intros Hempty Hsizes Hmany Hroom.
  assert (Hq : (length (data_queue_ c) <= 1001)%nat) by (rewrite Hempty; simpl; lia).
  split.
  - destruct (push_all_counts Hsizes c Hq) as (c' & Hrun & Hqueue & Hdrop).
    { rewrite Hempty. cbn [length]. lia. }
    rewrite Hempty in Hqueue, Hdrop. cbn [length app] in Hqueue, Hdrop.
    exists c'. split; [exact Hrun|]. split.
    + rewrite Hdrop. lia.
    + rewrite Hqueue, length_firstn. lia.
  - intros n.
    pose proof (length_firstn n buffers) as Hn.
    destruct (@push_all_counts (firstn n buffers) (Forall_prefix n Hsizes) c Hq)
      as (cn & Hrun & Hqueue & _).
    { rewrite Hempty. cbn [length]. lia. }
    exists cn. split; [exact Hrun|].
    rewrite Hqueue, Hempty, length_app, length_firstn. cbn [length]. lia.
Qed.

Lemma queue_overflow_drops_witness :
  (exists c',
     push_all (repeat packet_sized 1003) (M8Client_new 0 0) = Ok c'
     /\ dropped_packets_ c'
        = dropped_packets_ (M8Client_new 0 0)
          + (Z.of_nat (length (repeat packet_sized 1003)) - 1001)
     /\ length (data_queue_ c') = 1001%nat)
  /\ forall n,
       exists cn,
         push_all (firstn n (repeat packet_sized 1003)) (M8Client_new 0 0) = Ok cn
         /\ (length (data_queue_ cn) <= 1001)%nat.
Proof.
  apply queue_overflow_drops.
  - reflexivity.
  - apply Forall_forall. intros data Hin. apply repeat_spec in Hin. subst data.
    vm_compute. reflexivity.
  - rewrite repeat_length. lia.
  - rewrite repeat_length. vm_compute. discriminate.
Defined.

(** C5, as stated, fails for 1001 pushes: none is dropped (not one), and
    the depth reaches 1001. *)
Lemma queue_accepts_1001 :
  (c' <- push_all (repeat packet_sized 1001) (M8Client_new 0 0) ;;
   Ok (dropped_packets_ c', length (data_queue_ c')))
  = Ok (0, 1001%nat).
Proof.
  vm_compute. reflexivity.
Qed.

(** C6 (as amended).  A push whose buffer size is not 6612 does nothing
    at all: the queue is unchanged, and so are the drop counter and the
    output. *)
Theorem enqueue_wrong_size_ignored (data : list byte) (bytes_received : Z) (c : M8Client) :
  bytes_received <> M8_PACKET_BYTES ->
  enqueueM8Packet data bytes_received c = Ok c.
Proof.
  intros Hsize. unfold enqueueM8Packet.
  destruct (Z.eqb_spec bytes_received M8_PACKET_BYTES) as [Heq|_]; [contradiction|].
  reflexivity.
Qed.

Lemma enqueue_wrong_size_ignored_witness :
  enqueueM8Packet short_buffer 100 (M8Client_new 0 0) = Ok (M8Client_new 0 0).
Proof.
  apply enqueue_wrong_size_ignored. vm_compute. discriminate.
Defined.

(** C6, as stated, fails: after the push of a 100-byte buffer the drop
    counter is still 0. *)
Lemma enqueue_wrong_size_not_counted :
  Z.of_nat (length short_buffer) <> M8_PACKET_BYTES
  /\ dropped_packets_ (M8Client_new 0 0) = 0
  /\ match push short_buffer (M8Client_new 0 0) with
     | Ok c' => dropped_packets_ c' = 0 /\ data_queue_ c' = []
     | _ => False
     end.
Proof.
  vm_compute. repeat split; try reflexivity. discriminate.
Qed.

(** ** [start] *)




(** ** Decoding *)

Lemma byte_at_range (buf : M8DataPacket) (off : Z) : 0 <= byte_at buf off < 256.
Proof.
  unfold byte_at. pose proof (Byte.to_N_bounded (nth (Z.to_nat off) buf x00)). lia.
Qed.

Lemma u16_at_range (buf : M8DataPacket) (off : Z) : 0 <= u16_at buf off < 2 ^ 16.
Proof.
  unfold u16_at.
  pose proof (byte_at_range buf off). pose proof (byte_at_range buf (off + 1)).
  change (2 ^ 16) with 65536. lia.
Qed.

Lemma u32_at_range (buf : M8DataPacket) (off : Z) : 0 <= u32_at buf off < 2 ^ 32.
Proof.
  unfold u32_at.
  pose proof (byte_at_range buf off). pose proof (byte_at_range buf (off + 1)).
  pose proof (byte_at_range buf (off + 2)). pose proof (byte_at_range buf (off + 3)).
  change (2 ^ 32) with 4294967296. lia.
Qed.

(** ** Loops *)

Section Loops.

Variable S : Type.

Lemma for_up_ext (body body' : Z -> S -> outcome S) :
  (forall i s, body i s = body' i s) ->
  forall n i s, for_up n i body s = for_up n i body' s.
Proof.
  intros Hext. induction n as [|n IH]; intros i s; cbn [for_up].
  - reflexivity.
  - rewrite Hext. destruct (body' i s); cbn [bind]; auto.
Qed.

(** A property every iteration keeps holds when the loop returns. *)
Lemma for_up_invariant (P : S -> Prop) (body : Z -> S -> outcome S) :
  (forall i s s', P s -> body i s = Ok s' -> P s') ->
  forall n i s s', P s -> for_up n i body s = Ok s' -> P s'.
Proof.
  intros Hstep. induction n as [|n IH]; intros i s s' HP Hrun; cbn [for_up] in Hrun.
  - injection Hrun as <-. exact HP.
  - destruct (body i s) as [s1| |] eqn:Hbody; cbn [bind] in Hrun; try discriminate.
    eapply IH; [|exact Hrun]. eapply Hstep; eauto.
Qed.

(** A loop returns when every iteration in its range does, from any
    state in which the invariant holds. *)
Lemma for_up_returns (P : S -> Prop) (body : Z -> S -> outcome S) :
  forall n i0 s,
    (forall i s, i0 <= i < i0 + Z.of_nat n -> P s -> exists s', body i s = Ok s' /\ P s') ->
    P s ->
    exists s', for_up n i0 body s = Ok s' /\ P s'.
Proof.
  induction n as [|n IH]; intros i0 s Hstep HP; cbn [for_up].
  - exists s. auto.
  - destruct (Hstep i0 s ltac:(lia) HP) as (s1 & Hbody & HP1).
    rewrite Hbody. cbn [bind]. apply IH; [|exact HP1].
    intros i s2 Hi. apply Hstep. lia.
Qed.

End Loops.

(** A loop that only appends. *)
Lemma for_up_push_back (f : Z -> PointXYZI) (n : nat) :
  forall (i0 : Z) (sweep : PointCloud),
    for_up n i0 (fun j t => Ok (push_back (f j) t)) sweep
    = Ok (append_points (map f (upto n i0)) sweep).
Proof.
  induction n as [|n IH]; intros i0 sweep; cbn [for_up bind upto map].
  - reflexivity.
  - rewrite IH. reflexivity.
Qed.

Lemma append_points_spec (pts : list PointXYZI) :
  forall sweep : PointCloud,
    points (append_points pts sweep) = points sweep ++ pts
    /\ header_stamp (append_points pts sweep) = header_stamp sweep
    /\ header_seq (append_points pts sweep) = header_seq sweep
    /\ is_dense (append_points pts sweep) = is_dense sweep.
Proof.
  induction pts as [|pt pts IH]; intros sweep; cbn [append_points fold_left].
  - rewrite app_nil_r. auto.
  - fold (append_points pts (push_back pt sweep)).
    destruct (IH (push_back pt sweep)) as (Hp & Hst & Hsq & Hd).
    rewrite Hp, Hst, Hsq, Hd. cbn [push_back points]. rewrite <- app_assoc. auto.
Qed.

(** ** Sweep assembly *)

Lemma complete_sweep_returns (time : Z) (c : M8Client) :
  complete_sweep time c
  = Ok (set_sweep fresh_sweep
          (if 0 <? size (current_sweep_xyzi_ c) then delivered time c else c)).
Proof.
  unfold complete_sweep.
  destruct (0 <? size (current_sweep_xyzi_ c)); cbn [bind]; [|reflexivity].
  rewrite organizeCloud_returns. reflexivity.
Qed.

Section Assembly.

Variables std_cos std_sin : spec_float -> spec_float.

(** The range of a sample is a number, so [computeXYZ] takes its
    second branch and the dense flag is left alone. *)
Lemma add_point_appends (pkt : M8DataPacket) (i : Z) (cosH sinH : spec_float)
    (j : Z) (sweep : PointCloud) :
  add_point std_cos std_sin pkt i cosH sinH j sweep
  = Ok (push_back (sample_point std_cos std_sin pkt i cosH sinH j) sweep).
Proof.
  unfold add_point, sample_point, computeXYZ.
  rewrite range_of_not_nan.
  rewrite (Double_of_single_not_nan _ (range_of_not_nan _)).
  rewrite andb_false_r. reflexivity.
Qed.

Lemma lookup_cos (pos : Z) :
  lookup (cos_lookup_table_ std_cos) pos
  = if (0 <=? pos) && (pos <? M8_NUM_ROT_ANGLES + 1)
    then Ok (table_data (cos_lookup_table_ std_cos) pos)
    else Undefined_behaviour.
Proof. reflexivity. Qed.

Lemma lookup_sin (pos : Z) :
  lookup (sin_lookup_table_ std_sin) pos
  = if (0 <=? pos) && (pos <? M8_NUM_ROT_ANGLES + 1)
    then Ok (table_data (sin_lookup_table_ std_sin) pos)
    else Undefined_behaviour.
Proof. reflexivity. Qed.

(** One firing: undefined when its position is not an index of the
    tables, and [after_firing] otherwise. *)
Lemma process_firing_eq (pkt : M8DataPacket) (time dir i : Z) (c : M8Client) :
  process_firing std_cos std_sin pkt time dir i c
  = let pos := firing_position pkt (scan_counter_ c) i in
    if (0 <=? pos) && (pos <? M8_NUM_ROT_ANGLES + 1)
    then Ok (after_firing std_cos std_sin pkt time dir i c)
    else Undefined_behaviour.
Proof.
  unfold process_firing, after_firing, after_boundary.
  set (pos := firing_position pkt (scan_counter_ c) i).
  set (azimuth := azimuth_angle pos).
  cbv zeta.
  assert (Hb : (if sweep_boundary dir azimuth (last_azimuth_ c)
                then complete_sweep time c else Ok c)
               = Ok (after_boundary time dir azimuth c)).
  { unfold after_boundary.
    destruct (sweep_boundary dir azimuth (last_azimuth_ c)); [|reflexivity].
    apply complete_sweep_returns. }
  rewrite Hb. cbn [bind]. unfold after_boundary.
  rewrite lookup_cos, lookup_sin.
  destruct ((0 <=? pos) && (pos <? M8_NUM_ROT_ANGLES + 1)); cbn [bind]; [|reflexivity].
  rewrite (for_up_ext _ _ (add_point_appends pkt i _ _)).
  rewrite for_up_push_back. cbn [bind]. reflexivity.
Qed.

Lemma after_boundary_scan_counter (time dir : Z) (azimuth : spec_float) (c : M8Client) :
  scan_counter_ (after_boundary time dir azimuth c) = scan_counter_ c.
Proof.
  unfold after_boundary.
  destruct (sweep_boundary dir azimuth (last_azimuth_ c)); [|reflexivity].
  destruct (0 <? size (current_sweep_xyzi_ c)); [|reflexivity].
  unfold delivered, fireCurrentSweep.
  destruct (0 <? num_slots _)%nat; reflexivity.
Qed.

Lemma after_firing_scan_counter (pkt : M8DataPacket) (time dir i : Z) (c : M8Client) :
  scan_counter_ (after_firing std_cos std_sin pkt time dir i c) = scan_counter_ c.
Proof.
  unfold after_firing. cbn [set_last_azimuth set_sweep scan_counter_].
  apply after_boundary_scan_counter.
Qed.

(** A packet is processed to the end when the positions of its
    firings are indices of the tables. *)
Lemma toPointClouds_returns (pkt : M8DataPacket) (c : M8Client) :
  (forall i, 0 <= i < M8_FIRING_PER_PKT ->
     0 <= firing_position pkt (uint32 (scan_counter_ c + 1)) i <= M8_NUM_ROT_ANGLES) ->
  exists c', toPointClouds std_cos std_sin pkt c = Ok c'.
Proof.
  intros Hpos. unfold toPointClouds.
  destruct (@for_up_returns M8Client
              (fun s => scan_counter_ s = uint32 (scan_counter_ c + 1))
              (process_firing std_cos std_sin pkt (capture_time pkt) (direction pkt))
              (Z.to_nat M8_FIRING_PER_PKT) 0
              (set_scan_counter (uint32 (scan_counter_ c + 1)) c))
    as (c' & Hrun & _).
  - intros i s Hi Hs. rewrite process_firing_eq. cbv zeta. rewrite Hs.
    specialize (Hpos i ltac:(unfold M8_FIRING_PER_PKT in *; simpl in Hi; lia)).
    destruct (Z.leb_spec 0 (firing_position pkt (uint32 (scan_counter_ c + 1)) i));
      [|lia].
    destruct (Z.ltb_spec (firing_position pkt (uint32 (scan_counter_ c + 1)) i)
                         (M8_NUM_ROT_ANGLES + 1)); [|lia].
    cbn [andb]. eexists. split; [reflexivity|].
    rewrite after_firing_scan_counter. exact Hs.
  - reflexivity.
  - exists c'. exact Hrun.
Qed.

Lemma after_boundary_dense (time dir : Z) (azimuth : spec_float) (c : M8Client) :
  all_dense c -> all_dense (after_boundary time dir azimuth c).
Proof.
  intros [Hf Hc]. unfold after_boundary.
  destruct (sweep_boundary dir azimuth (last_azimuth_ c)); [|split; assumption].
  destruct (0 <? size (current_sweep_xyzi_ c)); [|split; [assumption | reflexivity]].
  unfold delivered, fireCurrentSweep.
  cbn [set_sweep_counter set_sweep num_slots].
  destruct (0 <? num_slots c)%nat; split; try reflexivity; cbn; try assumption.
  apply Forall_app. split; [assumption|]. constructor; [reflexivity | constructor].
Qed.

Lemma after_firing_dense (pkt : M8DataPacket) (time dir i : Z) (c : M8Client) :
  all_dense c -> all_dense (after_firing std_cos std_sin pkt time dir i c).
Proof.
  intros H. unfold after_firing.
  set (pos := firing_position pkt (scan_counter_ c) i).
  destruct (after_boundary_dense time dir (azimuth_angle pos) H) as [Hf Hc].
  split; cbn [set_last_azimuth set_sweep fired current_sweep_xyzi_]; [exact Hf|].
  destruct (append_points_spec (firing_points std_cos std_sin pkt i pos)
              (current_sweep_xyzi_ (after_boundary time dir (azimuth_angle pos) c)))
    as (_ & _ & _ & Hd).
  rewrite Hd. exact Hc.
Qed.

Lemma toPointClouds_dense (pkt : M8DataPacket) (c c' : M8Client) :
  all_dense c -> toPointClouds std_cos std_sin pkt c = Ok c' -> all_dense c'.
Proof.
  intros H Hrun. unfold toPointClouds in Hrun.
  eapply for_up_invariant; [| |exact Hrun].
  - intros i s s' Hs Hstep. rewrite process_firing_eq in Hstep. cbv zeta in Hstep.
    destruct (_ && _); [|discriminate].
    injection Hstep as <-. apply after_firing_dense, Hs.
  - exact H.
Qed.

Lemma upto_In (n : nat) :
  forall i0 i, i0 <= i < i0 + Z.of_nat n -> In i (upto n i0).
Proof.
  induction n as [|n IH]; intros i0 i Hi; cbn [upto].
  - lia.
  - destruct (Z.eq_dec i i0) as [->|Hne]; [left; reflexivity|].
    right. apply IH. lia.
Qed.

Lemma firing_position_stationary (pkt : M8DataPacket) (scan_counter i : Z) :
  spin pkt = false ->
  firing_position pkt scan_counter i
  = uint32 (uint32 (scan_counter * 50) + i) mod 1000
  /\ 0 <= firing_position pkt scan_counter i < 1000.
Proof.
  intros Hspin. unfold firing_position, M8_FIRING_PER_PKT. rewrite Hspin.
  pose proof (Z.mod_pos_bound (uint32 (uint32 (scan_counter * 50) + i))
                1000 ltac:(lia)) as H.
  unfold uint16. rewrite Z.mod_small by (change (2 ^ 16) with 65536; lia).
  auto.
Qed.

Lemma firing_position_in_table (pkt : M8DataPacket) (scan_counter i : Z) :
  in_table pkt = true ->
  0 <= i < M8_FIRING_PER_PKT ->
  0 <= firing_position pkt scan_counter i <= M8_NUM_ROT_ANGLES.
Proof.
  intros Htable Hi.
  destruct (spin pkt) eqn:Hspin.
  - unfold firing_position. rewrite Hspin.
    unfold in_table in Htable. rewrite forallb_forall in Htable.
    specialize (Htable i (@upto_In (Z.to_nat M8_FIRING_PER_PKT) 0 i Hi)).
    apply Z.leb_le in Htable.
    pose proof (u16_at_range pkt (firing_bytes * i)). unfold position in *. lia.
  - destruct (firing_position_stationary pkt scan_counter i Hspin) as [_ H].
    unfold M8_NUM_ROT_ANGLES. lia.
Qed.

(** The queue is processed to the end when the positions on the wire
    are indices of the tables. *)
Lemma consume_returns (queue : list M8DataPacket) :
  forallb in_table queue = true ->
  forall c, exists c', consume std_cos std_sin queue c = Ok c'.
Proof.
  induction queue as [|data rest IH]; intros Htable c; cbn [consume].
  - exists c. reflexivity.
  - cbn [forallb] in Htable. apply andb_prop in Htable. destruct Htable as [Hdata Hrest].
    destruct (@toPointClouds_returns data (set_queue rest c)) as [c1 Hc1].
    { intros i Hi. apply firing_position_in_table; assumption. }
    rewrite Hc1. cbn [bind]. apply IH, Hrest.
Qed.

Lemma consume_dense (queue : list M8DataPacket) :
  forall c c', all_dense c -> consume std_cos std_sin queue c = Ok c' -> all_dense c'.
Proof.
  induction queue as [|data rest IH]; intros c c' H Hrun; cbn [consume] in Hrun.
  - injection Hrun as <-. exact H.
  - destruct (toPointClouds std_cos std_sin data (set_queue rest c)) as [c1| |] eqn:Hpkt;
      cbn [bind] in Hrun; try discriminate.
    eapply IH; [|exact Hrun].
    eapply toPointClouds_dense; [|exact Hpkt]. exact H.
Qed.

End Assembly.

(** A spinning packet whose first position is past the tables stops
    [toPointClouds] at the first lookup. *)
Lemma toPointClouds_first_position_past_tables
    (std_cos std_sin : spec_float -> spec_float) (pkt : M8DataPacket) (c : M8Client) :
  spin pkt = true ->
  M8_NUM_ROT_ANGLES < position pkt 0 ->
  toPointClouds std_cos std_sin pkt c = Undefined_behaviour.
Proof.
  intros Hspin Hpos. unfold toPointClouds.
  change (Z.to_nat M8_FIRING_PER_PKT) with (S 49). cbn [for_up].
  rewrite process_firing_eq. cbv zeta.
  unfold firing_position. rewrite Hspin.
  destruct (Z.ltb_spec (position pkt 0) (M8_NUM_ROT_ANGLES + 1)) as [Hlt|_]; [lia|].
  rewrite andb_false_r. reflexivity.
Qed.

Section Pipeline.

Variables std_cos std_sin : spec_float -> spec_float.


(** C7, on the code: a packet of 6612 bytes whose first firing
    reports position 20000 makes [toPointClouds] read the tables past
    their 10401 entries. *)
Theorem toPointClouds_stray_position :
  length stray_packet = Z.to_nat M8_PACKET_BYTES
  /\ position stray_packet 0 = 20000
  /\ spin stray_packet = true
  /\ table_size (cos_lookup_table_ std_cos) = 10401
  /\ lookup (cos_lookup_table_ std_cos) (position stray_packet 0) = Undefined_behaviour
  /\ toPointClouds std_cos std_sin stray_packet (M8Client_new 0 0) = Undefined_behaviour.
Proof.
  repeat split; vm_compute; reflexivity.
Qed.

(** C9.  The range of every sample, a 32-bit distance times 0.01
    narrowed to [float], is not a NaN; [computeXYZ] therefore takes its
    second branch for every sample and the dense flag is never cleared:
    when the packets of the queue have been processed by a new client,
    every sweep that was fired is dense, and so is the sweep in
    progress.  The queue is processed to the end when the positions on
    the wire are indices of the tables. *)
Theorem ranges_never_nan :
  (forall pkt i j,
     0 <= returns_distances pkt i 0 j < 2 ^ 32
     /\ isnan (range_of (returns_distances pkt i 0 j)) = false
     /\ isnan (Double.of_single (range_of (returns_distances pkt i 0 j))) = false)
  /\ (forall pkt i cosH sinH j sweep,
        add_point std_cos std_sin pkt i cosH sinH j sweep
        = Ok (push_back (sample_point std_cos std_sin pkt i cosH sinH j) sweep))
  /\ (forall queue scan0 slots,
        match processM8Packets std_cos std_sin
                (set_queue queue (M8Client_new scan0 slots)) with
        | Ok c' =>
            Forall (fun sweep => is_dense sweep = true) (fired c')
            /\ is_dense (current_sweep_xyzi_ c') = true
        | _ => True
        end)
  /\ (forall queue scan0 slots,
        forallb in_table queue = true ->
        exists c',
          processM8Packets std_cos std_sin
            (set_queue queue (M8Client_new scan0 slots)) = Ok c').
Proof.
  split; [|split; [|split]].
  - intros pkt i j. split; [apply u32_at_range|]. split.
    + apply range_of_not_nan.
    + apply Double_of_single_not_nan, range_of_not_nan.
  - apply add_point_appends.
  - intros queue scan0 slots. unfold processM8Packets.
    destruct (consume std_cos std_sin _ _) as [c'| |] eqn:Hrun; auto.
    eapply consume_dense; [|exact Hrun]. split; [constructor | reflexivity].
  - intros queue scan0 slots Htable. unfold processM8Packets.
    apply consume_returns. exact Htable.
Qed.

(** C10 (as amended).  For a packet that is not spinning, the position
    of firing [i] is [(scan_counter_ * 50 + i) % 1000] on the
    incremented scan counter, computed in 32-bit unsigned arithmetic:
    the sum is reduced modulo 2^32 before the remainder by 1000 is
    taken.  It lies in [0, 1000), both lookups are in bounds, and the
    packet is processed to the end. *)
Theorem stationary_positions (pkt : M8DataPacket) (c : M8Client) :
  spin pkt = false ->
  let scan_counter := uint32 (scan_counter_ c + 1) in
  (forall i, 0 <= i < 50 ->
     let pos := firing_position pkt scan_counter i in
     pos = ((scan_counter * 50 + i) mod 2 ^ 32) mod 1000
     /\ 0 <= pos < 1000
     /\ lookup (cos_lookup_table_ std_cos) pos
        = Ok (table_data (cos_lookup_table_ std_cos) pos)
     /\ lookup (sin_lookup_table_ std_sin) pos
        = Ok (table_data (sin_lookup_table_ std_sin) pos))
  /\ exists c', toPointClouds std_cos std_sin pkt c = Ok c'.
Proof.
  intros Hspin scan_counter.
  assert (Hpos : forall i,
             firing_position pkt scan_counter i
             = ((scan_counter * 50 + i) mod 2 ^ 32) mod 1000).
  { intros i. unfold firing_position, M8_FIRING_PER_PKT. rewrite Hspin.
    unfold uint32 at 1 2. rewrite Z.add_mod_idemp_l by (vm_compute; discriminate).
    unfold uint16. apply Z.mod_small.
    pose proof (Z.mod_pos_bound ((scan_counter * 50 + i) mod 2 ^ 32)
                  1000 ltac:(lia)).
    change (2 ^ 16) with 65536. lia. }
  assert (Hrange : forall i, 0 <= firing_position pkt scan_counter i < 1000).
  { intros i. rewrite Hpos. apply Z.mod_pos_bound. lia. }
  split.
  - intros i Hi pos. subst pos. split; [apply Hpos|]. split; [apply Hrange|].
    pose proof (Hrange i) as Hr. rewrite lookup_cos, lookup_sin.
    destruct (Z.leb_spec 0 (firing_position pkt scan_counter i)); [|lia].
    destruct (Z.ltb_spec (firing_position pkt scan_counter i) (M8_NUM_ROT_ANGLES + 1));
      [|unfold M8_NUM_ROT_ANGLES in *; lia].
    split; reflexivity.
  - apply toPointClouds_returns. intros i _.
    pose proof (Hrange i). fold scan_counter. unfold M8_NUM_ROT_ANGLES. lia.
Qed.

End Pipeline.

Lemma ranges_never_nan_witness :
  exists c',
    processM8Packets const_zero const_zero
      (set_queue [ramp_packet; still_packet] (M8Client_new 0 1)) = Ok c'.
Proof.
  apply (proj2 (proj2 (proj2 (ranges_never_nan const_zero const_zero)))).
  vm_compute. reflexivity.
Defined.

(** The sweeps of [ramp_packet]: direction -1 with rising positions makes
    every firing but the first a boundary, so 49 sweeps of eight points
    each are fired, all dense, numbered 0 to 48. *)
Example ramp_packet_sweeps :
  match toPointClouds const_zero const_zero ramp_packet (M8Client_new 0 1) with
  | Ok c' =>
      direction ramp_packet = -1
      /\ map (fun s => (header_seq s, length (points s), height s, width s, is_dense s))
             (fired c')
         = map (fun k => (Z.of_nat k, 8%nat, 8, 1, true)) (seq 0 49)
      /\ sweep_counter_ c' = 49
  | _ => False
  end.
Proof.
  vm_compute. repeat split.
Qed.

(** [organizeCloud] on two firings numbered 0..15 by [x]. *)
Example organizeCloud_two_firings :
  match organizeCloud two_firings with
  | Ok c' =>
      map (fun pt => Double.to_Z (x pt)) (points c')
      = [7; 15; 6; 14; 5; 13; 4; 12; 3; 11; 2; 10; 1; 9; 0; 8]
      /\ width c' = 2 /\ height c' = 8
  | _ => False
  end.
Proof.
  vm_compute. repeat split.
Qed.

(** C10, as stated, fails when the sum passes 2^32: with the
    incremented scan counter at 85899345, firing 46 of a packet that is
    not spinning gets position 0, and (85899345 * 50 + 46) mod 1000 is
    296. *)
Lemma stationary_position_wraps :
  spin still_packet = false
  /\ uint32 (scan_counter_ (M8Client_new 85899344 1) + 1) = 85899345
  /\ firing_position still_packet 85899345 46 = 0
  /\ (85899345 * 50 + 46) mod 1000 = 296
  /\ firing_position still_packet 85899345 46 <> (85899345 * 50 + 46) mod 1000.
Proof.
  vm_compute. repeat split; try reflexivity. discriminate.
Qed.

Lemma stationary_positions_witness :
  spin still_packet = false
  /\ exists c', toPointClouds const_zero const_zero still_packet (M8Client_new 7 1) = Ok c'.
Proof.
  split; [reflexivity|].
  apply (proj2 (@stationary_positions const_zero const_zero still_packet
                  (M8Client_new 7 1) eq_refl)).
Defined.

(** * Further properties *)

(** ** The queue *)

(** The queue after pushes of packet-sized buffers, whenever they all
    return: the buffers in the order of arrival, as long as the depth is
    at most 1000 before the push; the later ones are the ones refused. *)
Lemma push_all_queue (buffers : list (list byte)) :
  Forall (fun data => Z.of_nat (length data) = M8_PACKET_BYTES) buffers ->
  forall c c' : M8Client,
    (length (data_queue_ c) <= 1001)%nat ->
    push_all buffers c = Ok c' ->
    data_queue_ c'
    = data_queue_ c ++ firstn (1001 - length (data_queue_ c)) buffers.
Proof.
  induction 1 as [|data buffers Hdata _ IH]; intros c c' Hq Hrun.
  - cbn [push_all] in Hrun. injection Hrun as <-.
    rewrite firstn_nil, app_nil_r. reflexivity.
  - cbn [push_all] in Hrun.
    destruct (Nat.le_gt_cases (length (data_queue_ c)) 1000) as [Hle|Hgt].
    + rewrite (push_packet_sized data c Hdata Hle) in Hrun. cbn [bind] in Hrun.
      apply IH in Hrun;
        [|cbn [set_queue data_queue_]; rewrite length_app; cbn [length]; lia].
      rewrite Hrun. cbn [set_queue data_queue_]. rewrite length_app. cbn [length].
      replace (1001 - length (data_queue_ c))%nat
        with (S (1001 - (length (data_queue_ c) + 1)))%nat by lia.
      cbn [firstn]. rewrite <- app_assoc. reflexivity.
    + rewrite (push_full data c Hdata Hgt) in Hrun.
      destruct (dropped_packets_ c <? INT_MAX); [|discriminate Hrun].
      cbn [bind] in Hrun.
      destruct (refused_fields c) as (Hq1 & _).
      apply IH in Hrun; [|rewrite Hq1; exact Hq].
      rewrite Hrun, Hq1.
      replace (1001 - length (data_queue_ c))%nat with 0%nat by lia.
      reflexivity.
Qed.

(** X1.  Pushed into an empty queue with no pop in between, packet-sized
    buffers are queued in the order of arrival and the queue keeps the
    first 1001 of them: under overload the newest buffers are the ones
    dropped.  The pushes all return as long as the drops fit the
    counter. *)
Theorem queue_keeps_oldest (buffers : list (list byte)) (c : M8Client) :
  data_queue_ c = [] ->
  Forall (fun data => Z.of_nat (length data) = M8_PACKET_BYTES) buffers ->
  (forall c', push_all buffers c = Ok c' -> data_queue_ c' = firstn 1001 buffers)
  /\ (dropped_packets_ c + Z.of_nat (length buffers - 1001) <= INT_MAX ->
      exists c', push_all buffers c = Ok c' /\ data_queue_ c' = firstn 1001 buffers).
Proof.
  intros Hempty Hsizes.
  assert (Hq : (length (data_queue_ c) <= 1001)%nat) by (rewrite Hempty; simpl; lia).
  split.
  - intros c' Hrun.
    rewrite (push_all_queue Hsizes c Hq Hrun), Hempty. reflexivity.
  - intros Hroom.
    destruct (push_all_counts Hsizes c Hq) as (c' & Hrun & Hqueue & _).
    { rewrite Hempty. exact Hroom. }
    exists c'. split; [exact Hrun|]. rewrite Hqueue, Hempty. reflexivity.
Qed.

Lemma queue_keeps_oldest_witness :
  exists c',
    push_all (repeat packet_sized 1003) (M8Client_new 0 0) = Ok c'
    /\ data_queue_ c' = firstn 1001 (repeat packet_sized 1003).
Proof.
  apply (proj2 (@queue_keeps_oldest (repeat packet_sized 1003) (M8Client_new 0 0)
                  eq_refl
                  ltac:(apply Forall_forall; intros data Hin;
                        apply repeat_spec in Hin; subst data;
                        vm_compute; reflexivity))).
  rewrite repeat_length. vm_compute. discriminate.
Defined.

(** X2.  [enqueueM8Packet] keeps the queue a queue of packets: when the
    receive buffer holds the [bytes_received] bytes it is said to hold
    and every queued buffer has 6612 bytes, every queued buffer has
    6612 bytes afterwards.  The call returns unless the drop counter
    is at [INT_MAX]. *)
Theorem enqueue_keeps_packet_size (data : list byte) (bytes_received : Z) (c : M8Client) :
  bytes_received <= Z.of_nat (length data) ->
  Forall (fun buffer => Z.of_nat (length buffer) = M8_PACKET_BYTES) (data_queue_ c) ->
  (forall c',
     enqueueM8Packet data bytes_received c = Ok c' ->
     Forall (fun buffer => Z.of_nat (length buffer) = M8_PACKET_BYTES) (data_queue_ c'))
  /\ (dropped_packets_ c < INT_MAX ->
      exists c', enqueueM8Packet data bytes_received c = Ok c').
Proof.
  intros Hheld Hqueue. unfold enqueueM8Packet.
  destruct (Z.eqb_spec bytes_received M8_PACKET_BYTES) as [Heq|_].
  - destruct (Z.of_nat (length (data_queue_ c)) >? 1000).
    + destruct (Z.ltb_spec (dropped_packets_ c) INT_MAX) as [Hlt|Hge].
      * cbn [set_dropped dropped_packets_]. split.
        -- intros c' Hrun.
           destruct (Z.land _ _ =? 0); injection Hrun as <-; exact Hqueue.
        -- intros _. destruct (Z.land _ _ =? 0); eexists; reflexivity.
      * split; [discriminate | lia].
    + split.
      * intros c' Hrun. injection Hrun as <-.
        cbn [set_queue data_queue_]. apply Forall_app. split; [exact Hqueue|].
        constructor; [|constructor].
        rewrite length_firstn. unfold M8_PACKET_BYTES in *. lia.
      * intros _. eexists. reflexivity.
  - split.
    + intros c' Hrun. injection Hrun as <-. exact Hqueue.
    + intros _. eexists. reflexivity.
Qed.

Lemma enqueue_keeps_packet_size_witness :
  exists c',
    enqueueM8Packet receive_buffer 6612 (M8Client_new 0 0) = Ok c'
    /\ Forall (fun buffer => Z.of_nat (length buffer) = M8_PACKET_BYTES) (data_queue_ c').
Proof.
  destruct (@enqueue_keeps_packet_size receive_buffer 6612 (M8Client_new 0 0))
    as [Hkeeps Hreturns].
  - vm_compute. discriminate.
  - constructor.
  - destruct Hreturns as [c' Hrun]; [reflexivity|].
    exists c'. split; [exact Hrun | exact (Hkeeps c' Hrun)].
Defined.

(** *** The lines printed for dropped packets *)

(** [n & (n - 1)] is zero exactly for the powers of two. *)
Lemma land_pred_power_of_two (n : Z) :
  0 < n -> (Z.land n (n - 1) = 0 <-> n = 2 ^ Z.log2 n).
Proof.
  intros Hn. pose proof (Z.log2_nonneg n) as Hk.
  pose proof (Z.log2_spec n Hn) as [Hlo Hhi].
  split.
  - intros Hland.
    destruct (Z.eq_dec n (2 ^ Z.log2 n)) as [Heq|Hne]; [exact Heq|exfalso].
    assert (Hpred : Z.log2 (n - 1) = Z.log2 n)
      by (apply Z.log2_unique; [exact Hk | lia]).
    assert (Hbit : Z.testbit (Z.land n (n - 1)) (Z.log2 n) = true).
    { rewrite Z.land_spec, Z.bit_log2 by exact Hn.
      rewrite <- Hpred. rewrite Z.bit_log2 by (pose proof (Z.pow_pos_nonneg 2 (Z.log2 n)); lia).
      reflexivity. }
    rewrite Hland, Z.bits_0 in Hbit. discriminate.
  - intros Heq. rewrite Heq at 1.
    replace (n - 1) with (Z.ones (Z.log2 n))
      by (rewrite Z.ones_equiv; lia).
    rewrite Z.land_ones by exact Hk.
    apply Z.mod_same. pose proof (Z.pow_pos_nonneg 2 (Z.log2 n)). lia.
Qed.

(** The number of powers of two up to [n + 1], from that up to [n]. *)
Lemma log2_up_step (n : Z) :
  0 <= n ->
  Z.log2_up (n + 2)
  = Z.log2_up (n + 1) + (if Z.land (n + 1) n =? 0 then 1 else 0)
  /\ (Z.land (n + 1) n = 0 -> n + 1 = 2 ^ Z.log2_up (n + 1)).
Proof.
  intros Hn.
  assert (Hup : forall m, 0 < m -> Z.log2_up (m + 1) = Z.log2 m + 1).
  { intros m Hm. rewrite Z.log2_up_eqn by lia.
    replace (Z.pred (m + 1)) with m by lia. lia. }
  pose proof (@land_pred_power_of_two (n + 1) ltac:(lia)) as Hpow.
  replace (n + 1 - 1) with n in Hpow by lia.
  pose proof (Z.log2_spec (n + 1) ltac:(lia)) as [Hlo Hhi].
  pose proof (Z.log2_nonneg (n + 1)) as Hk.
  replace (n + 2) with (n + 1 + 1) by lia. rewrite (Hup (n + 1)) by lia.
  destruct (Z.eq_dec n 0) as [->|Hn0].
  - split; [reflexivity|]. intros _. reflexivity.
  - rewrite (Hup n) by lia.
    destruct (Z.eqb_spec (Z.land (n + 1) n) 0) as [Hz|Hnz].
    + apply Hpow in Hz.
      assert (Hlog : Z.log2 n = Z.log2 (n + 1) - 1).
      { assert (0 < Z.log2 (n + 1)).
        { destruct (Z.eq_dec (Z.log2 (n + 1)) 0) as [H0|H0]; [|lia].
          rewrite H0 in Hz. simpl in Hz. lia. }
        apply Z.log2_unique; [lia|].
        replace (Z.succ (Z.log2 (n + 1) - 1)) with (Z.log2 (n + 1)) by lia.
        assert (2 ^ Z.log2 (n + 1) = 2 * 2 ^ (Z.log2 (n + 1) - 1)).
        { rewrite <- Z.pow_succ_r by lia. f_equal. lia. }
        pose proof (Z.pow_pos_nonneg 2 (Z.log2 (n + 1) - 1)).
        lia. }
      split; [lia|]. intros _. rewrite Hlog.
      replace (Z.log2 (n + 1) - 1 + 1) with (Z.log2 (n + 1)) by lia. exact Hz.
    + assert (Hlog : Z.log2 n = Z.log2 (n + 1)).
      { apply Z.log2_unique; [exact Hk|].
        assert (n + 1 <> 2 ^ Z.log2 (n + 1)) by (intros H; apply Hnz, Hpow, H).
        unfold Z.succ in Hhi. lia. }
      split; [lia|]. intros Hz. contradiction.
Qed.

Lemma upto_app (n m : nat) :
  forall i, upto (n + m) i = upto n i ++ upto m (i + Z.of_nat n).
Proof.
  induction n as [|n IH]; intros i.
  - cbn [Nat.add upto app]. f_equal. lia.
  - cbn [Nat.add upto app]. f_equal. rewrite IH. f_equal. f_equal. lia.
Qed.

Lemma drop_lines_step (n : Z) :
  0 <= n ->
  drop_lines (n + 1)
  = drop_lines n ++ (if Z.land (n + 1) n =? 0 then [Dropped_total (n + 1)] else []).
Proof.
  intros Hn. unfold drop_lines.
  destruct (log2_up_step Hn) as [Hstep Hpow].
  replace (n + 1 + 1) with (n + 2) by lia. rewrite Hstep.
  pose proof (Z.log2_up_nonneg (n + 1)) as Hk.
  destruct (Z.eqb_spec (Z.land (n + 1) n) 0) as [Hz|Hnz].
  - rewrite Z2Nat.inj_add by lia. change (Z.to_nat 1) with 1%nat.
    rewrite upto_app, map_app. cbn [upto map]. rewrite Z2Nat.id by lia.
    rewrite Z.add_0_l, <- (Hpow Hz). reflexivity.
  - rewrite Z.add_0_r, app_nil_r. reflexivity.
Qed.

Lemma push_all_app (l1 l2 : list (list byte)) :
  forall c, push_all (l1 ++ l2) c = c' <- push_all l1 c ;; push_all l2 c'.
Proof.
  induction l1 as [|data l1 IH]; intros c.
  - reflexivity.
  - cbn [app push_all]. destruct (push data c) as [c1| |]; cbn [bind]; auto.
Qed.

(** The counter cannot pass [INT_MAX]: the refused push that finds it
    there is a signed overflow. *)
Lemma push_all_overflow (buffers : list (list byte)) :
  Forall (fun data => Z.of_nat (length data) = M8_PACKET_BYTES) buffers ->
  forall c : M8Client,
    (1000 < length (data_queue_ c))%nat ->
    dropped_packets_ c <= INT_MAX ->
    INT_MAX < dropped_packets_ c + Z.of_nat (length buffers) ->
    push_all buffers c = Undefined_behaviour.
Proof.
  induction 1 as [|data buffers Hdata _ IH]; intros c Hfull Hle Hover.
  - cbn [length] in Hover. lia.
  - cbn [push_all]. rewrite (push_full data c Hdata Hfull).
    destruct (Z.ltb_spec (dropped_packets_ c) INT_MAX) as [Hlt|Hge]; [|reflexivity].
    cbn [bind]. destruct (refused_fields c) as (Hq1 & Hd1 & _).
    apply IH.
    + rewrite Hq1. exact Hfull.
    + rewrite Hd1. lia.
    + rewrite Hd1. cbn [length] in Hover. lia.
Qed.

(** X3.  Once the queue is full, starting from a drop count of 0, [n]
    further pushes of packet-sized buffers, [n] at most [INT_MAX], are
    all dropped and print one line at the 1st, 2nd, 4th, 8th, ... drop,
    the line giving that count: floor (log2 n) + 1 lines for [n] drops,
    and nothing else.  More than [INT_MAX] refused pushes overflow the
    counter. *)
Theorem drops_logged_at_powers_of_two (buffers : list (list byte)) (c : M8Client) :
  (1000 < length (data_queue_ c))%nat ->
  dropped_packets_ c = 0 ->
  Forall (fun data => Z.of_nat (length data) = M8_PACKET_BYTES) buffers ->
  (Z.of_nat (length buffers) <= INT_MAX ->
   exists c',
     push_all buffers c = Ok c'
     /\ printed c' = printed c ++ drop_lines (Z.of_nat (length buffers))
     /\ dropped_packets_ c' = Z.of_nat (length buffers)
     /\ data_queue_ c' = data_queue_ c)
  /\ (INT_MAX < Z.of_nat (length buffers) ->
      push_all buffers c = Undefined_behaviour).
Proof.
  intros Hfull Hzero Hsizes. split.
  - induction buffers as [|data buffers IH] using rev_ind; intros Hroom.
    + exists c. cbn [push_all length]. rewrite app_nil_r. auto.
    + apply Forall_app in Hsizes. destruct Hsizes as [Hsizes Hdata].
      inversion Hdata as [|? ? Hlen _]; subst.
      rewrite length_app in Hroom. cbn [length] in Hroom.
      destruct (IH Hsizes) as (c1 & Hrun & Hp & Hd & Hq); [lia|].
      rewrite push_all_app, Hrun. cbn [bind push_all].
      assert (Hfull1 : (1000 < length (data_queue_ c1))%nat)
        by (rewrite Hq; exact Hfull).
      rewrite (push_full data c1 Hlen Hfull1).
      destruct (Z.ltb_spec (dropped_packets_ c1) INT_MAX) as [_|Hge]; [|lia].
      cbn [bind]. exists (refused c1).
      destruct (refused_fields c1) as (Hq' & Hd' & _ & Hp').
      split; [reflexivity|].
      rewrite Hp', Hq', Hd', Hp, Hd, Hq, length_app. cbn [length].
      split; [|split; [lia | reflexivity]].
      rewrite <- app_assoc. f_equal.
      replace (Z.of_nat (length buffers + 1)) with (Z.of_nat (length buffers) + 1) by lia.
      rewrite drop_lines_step by lia. reflexivity.
  - intros Hover. apply push_all_overflow; try assumption.
    + rewrite Hzero. unfold INT_MAX. lia.
    + rewrite Hzero. lia.
Qed.

Lemma drops_logged_at_powers_of_two_witness :
  exists c',
    push_all (repeat packet_sized 5) full_client = Ok c'
    /\ printed c'
       = printed full_client ++ drop_lines (Z.of_nat (length (repeat packet_sized 5)))
    /\ dropped_packets_ c' = Z.of_nat (length (repeat packet_sized 5))
    /\ data_queue_ c' = data_queue_ full_client.
Proof.
  apply (proj1 (@drops_logged_at_powers_of_two (repeat packet_sized 5) full_client
                  ltac:(vm_compute; lia)
                  eq_refl
                  ltac:(apply Forall_forall; intros data Hin;
                        apply repeat_spec in Hin; subst data;
                        vm_compute; reflexivity))).
  vm_compute. discriminate.
Defined.

(** ** The reader thread *)

Lemma enqueue_received (bytes data : list byte) (c : M8Client) :
  Z.of_nat (length bytes) = M8_PACKET_BYTES ->
  enqueueM8Packet (receive bytes data) (Z.of_nat (length bytes)) c = push bytes c.
Proof.
  intros Hlen. unfold push, enqueueM8Packet, receive.
  rewrite Hlen, Z.eqb_refl. rewrite <- Hlen, Nat2Z.id.
  rewrite firstn_app, Nat.sub_diag, firstn_all. cbn [firstn]. rewrite app_nil_r.
  reflexivity.
Qed.

Lemma push_keeps_terminate (data : list byte) (c c' : M8Client) :
  push data c = Ok c' ->
  terminate_read_packet_thread_ c' = terminate_read_packet_thread_ c.
Proof.
  unfold push, enqueueM8Packet.
  destruct (_ =? M8_PACKET_BYTES); [|intros H; injection H as <-; reflexivity].
  destruct (_ >? 1000); [|intros H; injection H as <-; reflexivity].
  destruct (_ <? INT_MAX); [|discriminate].
  cbn [set_dropped dropped_packets_].
  destruct (Z.land _ _ =? 0); intros H; injection H as <-; reflexivity.
Qed.

(** X4.  The reader enqueues the packets it receives, in order, until
    the first read error; it then prints the message of that error, sets
    the termination flag and ends: whatever the socket would give
    afterwards is not read (no reconnection). *)
Theorem read_stops_at_first_error
    (packets : list (list byte)) (code : Z) (later : list read_result)
    (data : list byte) (c : M8Client) :
  terminate_read_packet_thread_ c = false ->
  Forall (fun bytes => Z.of_nat (length bytes) = M8_PACKET_BYTES) packets ->
  read (map Received packets ++ Read_error code :: later) data c
  = c' <- push_all packets c ;; Ok (set_terminate true c', [code]).
Proof.
  intros Hrun Hsizes. revert data c Hrun.
  induction Hsizes as [|bytes packets Hlen _ IH]; intros data c Hrun.
  - cbn [map app read push_all bind]. rewrite Hrun.
    destruct later as [|r later]; reflexivity.
  - cbn [map app read push_all]. rewrite Hrun.
    rewrite (enqueue_received bytes data c Hlen).
    destruct (push bytes c) as [c1| |] eqn:Hpush; cbn [bind]; [|reflexivity..].
    apply IH. rewrite (push_keeps_terminate _ _ Hpush). exact Hrun.
Qed.

Lemma read_stops_at_first_error_witness :
  read (map Received [packet_sized; ramp_packet] ++ Read_error 2 :: [Received still_packet])
       receive_buffer (M8Client_new 0 0)
  = c' <- push_all [packet_sized; ramp_packet] (M8Client_new 0 0) ;;
    Ok (set_terminate true c', [2]).
Proof.
  apply read_stops_at_first_error.
  - reflexivity.
  - repeat constructor.
Defined.

(** ** More on [organizeCloud] *)

Lemma collected_length (sweep : list PointXYZI) (w i : nat) :
  length (collected sweep w i) = w.
Proof. unfold collected. rewrite length_map, length_seq. reflexivity. Qed.

Lemma length_concat_blocks (A : Type) (g : nat -> list A) (w : nat) (L : list nat) :
  (forall i, length (g i) = w) -> length (concat (map g L)) = (length L * w)%nat.
Proof.
  intros Hlen. induction L as [|a L IH]; cbn [map concat length Nat.mul].
  - reflexivity.
  - rewrite length_app, Hlen, IH. reflexivity.
Qed.

(** X5.  [organizeCloud] returns for every cloud: no index it passes to
    [at] is out of range.  The cloud it leaves has 8 rows, [width]
    columns and 8 * [width] points, where [width] is the number of whole
    firings (as an [unsigned int]); it is a new cloud, so whatever the
    header and the dense flag of the input, its stamp and sequence
    number are 0 and it is flagged dense. *)
Theorem organizeCloud_total (c : PointCloud) :
  exists organized,
    organizeCloud c = Ok organized
    /\ height organized = 8
    /\ width organized = uint32 (size c / 8)
    /\ size organized = 8 * width organized
    /\ is_dense organized = true
    /\ header_stamp organized = 0
    /\ header_seq organized = 0.
Proof.
  rewrite organizeCloud_returns. eexists. split; [reflexivity|].
  cbn [height width is_dense header_stamp header_seq]. repeat split.
  unfold size at 1. cbn [points].
  rewrite (length_concat_blocks _ (w := Z.to_nat (uint32 (size c / M8_NUM_LASERS))))
    by (intros i; apply collected_length).
  pose proof (uint32_le (n := size c / M8_NUM_LASERS)
                ltac:(apply Z.div_pos; [unfold size; lia | reflexivity])).
  change (length lasers_top_down) with 8%nat. unfold M8_NUM_LASERS in *. lia.
Qed.

Lemma ring_firstn (sweep : list PointXYZI) (w i : nat) :
  (i < 8)%nat -> ring (firstn (8 * w) sweep) w i = ring sweep w i.
Proof.
  intros Hi. unfold ring. apply map_ext_in. intros j Hj. apply in_seq in Hj.
  rewrite nth_firstn.
  destruct (Nat.ltb_spec (j * 8 + i) (8 * w)); [reflexivity | lia].
Qed.

(** X6.  On a cloud of at most 2^32 points whose length is not a multiple
    of 8, [organizeCloud] drops the points after the last whole firing:
    the result is a permutation, in ring order, of the first
    8 * (length / 8) points. *)
Theorem organizeCloud_drops_remainder (c : PointCloud) :
  size c <= 2 ^ 32 ->
  exists organized,
    organizeCloud c = Ok organized
    /\ points organized
       = ring_order (firstn (8 * Z.to_nat (size c / 8)) (points c)) (Z.to_nat (size c / 8))
    /\ Permutation (points organized) (firstn (8 * Z.to_nat (size c / 8)) (points c))
    /\ length (points organized) = (length (points c) - length (points c) mod 8)%nat.
Proof.
  intros Hsize.
  assert (Hpos : 0 <= size c) by (unfold size; lia).
  pose proof (Z.mul_div_le (size c) 8 ltac:(lia)) as Hle.
  assert (Hw : uint32 (size c / M8_NUM_LASERS) = size c / 8).
  { unfold M8_NUM_LASERS. apply uint32_small. split; [apply Z.div_pos; lia | lia]. }
  assert (H8w : (8 * Z.to_nat (size c / 8) <= length (points c))%nat)
    by (unfold size in *; lia).
  assert (Hring : concat (map (collected (points c) (Z.to_nat (size c / 8))) lasers_top_down)
                  = ring_order (firstn (8 * Z.to_nat (size c / 8)) (points c))
                               (Z.to_nat (size c / 8))).
  { unfold ring_order. f_equal. apply map_ext_in. intros i Hi.
    apply lasers_top_down_lt in Hi.
    rewrite ring_firstn by exact Hi.
    apply collected_ring; [exact Hsize | exact H8w | exact Hi]. }
  assert (Hlen : length (firstn (8 * Z.to_nat (size c / 8)) (points c))
                 = (8 * Z.to_nat (size c / 8))%nat)
    by (rewrite length_firstn; lia).
  pose proof (@ring_order_permutation _ _ Hlen) as Hperm.
  rewrite organizeCloud_returns, Hw, Hring.
  eexists. split; [reflexivity|]. cbn [points].
  split; [reflexivity|]. split; [exact Hperm|].
  rewrite (Permutation_length Hperm), Hlen.
  unfold size.
  pose proof (Nat.div_mod_eq (length (points c)) 8) as Hdm.
  replace (Z.to_nat (Z.of_nat (length (points c)) / 8)) with (length (points c) / 8)%nat.
  - lia.
  - rewrite <- (Nat2Z.id (length (points c) / 8)). f_equal.
    rewrite Nat2Z.inj_div. reflexivity.
Qed.

Lemma organizeCloud_drops_remainder_witness :
  exists organized,
    organizeCloud eleven_points = Ok organized
    /\ points organized
       = ring_order (firstn (8 * Z.to_nat (size eleven_points / 8)) (points eleven_points))
                    (Z.to_nat (size eleven_points / 8))
    /\ Permutation (points organized)
                   (firstn (8 * Z.to_nat (size eleven_points / 8)) (points eleven_points))
    /\ length (points organized)
       = (length (points eleven_points) - length (points eleven_points) mod 8)%nat.
Proof.
  apply organizeCloud_drops_remainder. vm_compute. discriminate.
Defined.

(** ** More on the assembly of sweeps *)

Section Firings.

Variables std_cos std_sin : spec_float -> spec_float.

(** When the loop over firings returns, its result is the fold of
    [after_firing]. *)
Lemma for_up_firings (pkt : M8DataPacket) (time dir : Z) (n : nat) :
  forall i0 c c',
    for_up n i0 (process_firing std_cos std_sin pkt time dir) c = Ok c' ->
    c' = after_firings std_cos std_sin pkt time dir (upto n i0) c.
Proof.
  induction n as [|n IH]; intros i0 c c' Hrun; cbn [for_up upto] in *.
  - injection Hrun as <-. reflexivity.
  - rewrite process_firing_eq in Hrun. cbv zeta in Hrun.
    destruct (_ && _); [|discriminate]. cbn [bind] in Hrun.
    unfold after_firings. cbn [fold_left]. apply IH, Hrun.
Qed.

Lemma toPointClouds_firings (pkt : M8DataPacket) (c c' : M8Client) :
  toPointClouds std_cos std_sin pkt c = Ok c' ->
  c' = after_firings std_cos std_sin pkt (capture_time pkt) (direction pkt)
         (upto (Z.to_nat M8_FIRING_PER_PKT) 0)
         (set_scan_counter (uint32 (scan_counter_ c + 1)) c).
Proof. apply for_up_firings. Qed.

(** What one firing does to the client: either nothing is delivered and
    the eight points join the sweep in progress, or the sweep in
    progress, which has points, is organized, stamped, numbered and
    fired, and the eight points start the next one. *)
Lemma after_firing_cases (pkt : M8DataPacket) (time dir i : Z) (c : M8Client) :
  let c' := after_firing std_cos std_sin pkt time dir i c in
  let pts := firing_points std_cos std_sin pkt i
               (firing_position pkt (scan_counter_ c) i) in
  data_queue_ c' = data_queue_ c
  /\ scan_counter_ c' = scan_counter_ c
  /\ num_slots c' = num_slots c
  /\ dropped_packets_ c' = dropped_packets_ c
  /\ ((fired c' = fired c
       /\ sweep_counter_ c' = sweep_counter_ c
       /\ points (current_sweep_xyzi_ c') = points (current_sweep_xyzi_ c) ++ pts)
      \/ (0 < size (current_sweep_xyzi_ c)
          /\ fired c'
             = fired c
               ++ (if (0 <? num_slots c)%nat
                   then [set_header time (sweep_counter_ c)
                           (organized_cloud (current_sweep_xyzi_ c))]
                   else [])
          /\ sweep_counter_ c' = uint32 (sweep_counter_ c + 1)
          /\ points (current_sweep_xyzi_ c') = pts)).
Proof.
  cbv zeta. unfold after_firing.
  set (pos := firing_position pkt (scan_counter_ c) i).
  set (pts := firing_points std_cos std_sin pkt i pos).
  set (c1 := after_boundary time dir (azimuth_angle pos) c).
  cbn [set_last_azimuth set_sweep data_queue_ scan_counter_ num_slots dropped_packets_
       fired sweep_counter_ current_sweep_xyzi_].
  destruct (append_points_spec pts (current_sweep_xyzi_ c1)) as (Hp & _).
  rewrite Hp. subst c1. unfold after_boundary.
  destruct (sweep_boundary dir (azimuth_angle pos) (last_azimuth_ c)).
  - destruct (Z.ltb_spec 0 (size (current_sweep_xyzi_ c))) as [Hsome|Hnone].
    + unfold delivered, fireCurrentSweep.
      cbn [set_sweep_counter set_sweep num_slots].
      destruct (0 <? num_slots c)%nat;
        cbn [set_fired set_sweep_counter set_sweep data_queue_ scan_counter_ num_slots
             dropped_packets_ fired sweep_counter_ current_sweep_xyzi_ fresh_sweep
             set_is_dense new_PointCloud points app];
        repeat split; right; repeat split; try assumption.
      rewrite app_nil_r. reflexivity.
    + cbn [set_sweep data_queue_ scan_counter_ num_slots dropped_packets_ fired
           sweep_counter_ current_sweep_xyzi_ fresh_sweep set_is_dense new_PointCloud
           points app].
      repeat split. left. repeat split.
      assert (Hnil : points (current_sweep_xyzi_ c) = []).
      { unfold size in Hnone. destruct (points (current_sweep_xyzi_ c)); [reflexivity|].
        cbn [length] in Hnone. lia. }
      rewrite Hnil. reflexivity.
  - repeat split. left. repeat split.
Qed.

Lemma firing_points_length (pkt : M8DataPacket) (i pos : Z) :
  length (firing_points std_cos std_sin pkt i pos) = 8%nat.
Proof. unfold firing_points. rewrite length_map. reflexivity. Qed.

End Firings.

Section Sweeps.

Variables std_cos std_sin : spec_float -> spec_float.

Lemma toPointClouds_in_table (pkt : M8DataPacket) (c : M8Client) :
  in_table pkt = true -> exists c', toPointClouds std_cos std_sin pkt c = Ok c'.
Proof.
  intros Htable. apply toPointClouds_returns.
  intros i Hi. apply firing_position_in_table; assumption.
Qed.

Lemma organized_cloud_shape (time sq : Z) (sweep : PointCloud) :
  fired_at time (set_header time sq (organized_cloud sweep)).
Proof.
  unfold fired_at, set_header, organized_cloud.
  cbn [header_stamp height width is_dense]. repeat split.
  unfold size at 1. cbn [points].
  rewrite (length_concat_blocks _ (w := Z.to_nat (uint32 (size sweep / M8_NUM_LASERS))))
    by (intros i; apply collected_length).
  pose proof (uint32_le (n := size sweep / M8_NUM_LASERS)
                ltac:(apply Z.div_pos; [unfold size; lia | reflexivity])).
  change (length lasers_top_down) with 8%nat. lia.
Qed.

(** The sweeps fired during a list of firings. *)
Lemma after_firings_fired (pkt : M8DataPacket) (time dir : Z) (indices : list Z) :
  forall c,
  exists new,
    fired (after_firings std_cos std_sin pkt time dir indices c) = fired c ++ new
    /\ (length new <= length indices)%nat
    /\ Forall (fired_at time) new
    /\ ((num_slots c = 0)%nat -> new = []).
Proof.
  induction indices as [|i indices IH]; intros c.
  - exists []. cbn [after_firings fold_left]. rewrite app_nil_r.
    repeat split; auto.
  - unfold after_firings. cbn [fold_left].
    fold (after_firings std_cos std_sin pkt time dir indices
            (after_firing std_cos std_sin pkt time dir i c)).
    destruct (IH (after_firing std_cos std_sin pkt time dir i c))
      as (new & Hf & Hlen & Hall & Hnone).
    destruct (after_firing_cases std_cos std_sin pkt time dir i c)
      as (_ & _ & Hslots & _ & [(Hfired & _)|(_ & Hfired & _)]).
    + exists new. rewrite Hf, Hfired. cbn [length].
      repeat split; auto. intros H0. apply Hnone. rewrite Hslots. exact H0.
    + rewrite Hf, Hfired, <- app_assoc.
      destruct (Nat.ltb_spec 0 (num_slots c)) as [Hsome|Hzero].
      * eexists. split; [reflexivity|]. cbn [app length].
        split; [lia|]. split; [|intros H0; lia].
        constructor; [apply organized_cloud_shape | exact Hall].
      * exists new. cbn [app length]. repeat split; auto.
        intros H0. apply Hnone. rewrite Hslots. exact H0.
Qed.

(** X7.  While a packet whose positions are indices of the tables is
    processed, at most 50 sweeps are fired; each carries the capture
    time of that packet as its stamp, has 8 rows and 8 * width points
    and is flagged dense; with no slot connected none is fired. *)
Theorem toPointClouds_fired_sweeps (pkt : M8DataPacket) (c : M8Client) :
  in_table pkt = true ->
  exists c' new,
    toPointClouds std_cos std_sin pkt c = Ok c'
    /\ fired c' = fired c ++ new
    /\ (length new <= 50)%nat
    /\ Forall (fired_at (capture_time pkt)) new
    /\ ((num_slots c = 0)%nat -> new = []).
Proof.
  intros Htable.
  destruct (toPointClouds_in_table pkt c Htable) as [c' Hrun].
  pose proof (toPointClouds_firings _ _ _ _ Hrun) as Hc'.
  destruct (after_firings_fired pkt (capture_time pkt) (direction pkt)
              (upto (Z.to_nat M8_FIRING_PER_PKT) 0)
              (set_scan_counter (uint32 (scan_counter_ c + 1)) c))
    as (new & Hf & Hlen & Hall & Hnone).
  exists c', new. split; [exact Hrun|]. rewrite Hc'.
  split; [exact Hf|]. split; [exact Hlen|]. split; [exact Hall | exact Hnone].
Qed.

(** The numbering is kept by every firing of a client with a slot. *)
Lemma after_firing_numbered (pkt : M8DataPacket) (time dir i : Z) (c : M8Client) :
  (0 < num_slots c)%nat ->
  numbered c -> numbered (after_firing std_cos std_sin pkt time dir i c).
Proof.
  intros Hslots [Hseq Hcount]. unfold numbered.
  destruct (after_firing_cases std_cos std_sin pkt time dir i c)
    as (_ & _ & _ & _ & [(Hfired & Hsc & _)|(_ & Hfired & Hsc & _)]).
  - rewrite Hfired, Hsc. split; assumption.
  - destruct (Nat.ltb_spec 0 (num_slots c)) as [_|Hzero]; [|lia].
    rewrite Hfired, Hsc, map_app, length_app, Hseq. cbn [length map].
    rewrite upto_app, map_app. cbn [upto map].
    cbn [set_header header_seq]. rewrite Hcount, Z.add_0_l.
    split; [reflexivity|].
    unfold uint32. rewrite Zplus_mod_idemp_l. f_equal. lia.
Qed.

Lemma after_firings_numbered (pkt : M8DataPacket) (time dir : Z) (indices : list Z) :
  forall c,
    (0 < num_slots c)%nat -> numbered c ->
    numbered (after_firings std_cos std_sin pkt time dir indices c)
    /\ num_slots (after_firings std_cos std_sin pkt time dir indices c) = num_slots c.
Proof.
  induction indices as [|i indices IH]; intros c Hslots Hnum.
  - split; [exact Hnum | reflexivity].
  - unfold after_firings. cbn [fold_left].
    fold (after_firings std_cos std_sin pkt time dir indices
            (after_firing std_cos std_sin pkt time dir i c)).
    destruct (after_firing_cases std_cos std_sin pkt time dir i c)
      as (_ & _ & Hs & _).
    destruct (IH (after_firing std_cos std_sin pkt time dir i c)) as [Hn Hs'].
    + rewrite Hs. exact Hslots.
    + apply after_firing_numbered; assumption.
    + split; [exact Hn | rewrite Hs'; exact Hs].
Qed.

Lemma consume_numbered (queue : list M8DataPacket) :
  forall c c',
    (0 < num_slots c)%nat -> numbered c ->
    consume std_cos std_sin queue c = Ok c' -> numbered c'.
Proof.
  induction queue as [|data rest IH]; intros c c' Hslots Hnum Hrun; cbn [consume] in Hrun.
  - injection Hrun as <-. exact Hnum.
  - destruct (toPointClouds std_cos std_sin data (set_queue rest c)) as [c1| |] eqn:Hpkt;
      cbn [bind] in Hrun; try discriminate.
    apply toPointClouds_firings in Hpkt.
    destruct (after_firings_numbered data (capture_time data) (direction data)
                (upto (Z.to_nat M8_FIRING_PER_PKT) 0)
                (c := set_scan_counter
                        (uint32 (scan_counter_ (set_queue rest c) + 1)) (set_queue rest c)))
      as [Hn Hs]; [exact Hslots | exact Hnum |].
    rewrite <- Hpkt in Hn, Hs.
    eapply IH; [| exact Hn | exact Hrun].
    rewrite Hs. exact Hslots.
Qed.

(** X8.  A new client with a slot, given a queue of packets whose
    positions are indices of the tables, processes the queue to the end
    and numbers the sweeps it fires 0, 1, 2, ... (modulo 2^32) in the
    order in which it fires them; the sweep counter is the number of
    sweeps fired. *)
Theorem sweeps_numbered_in_order (queue : list M8DataPacket) (scan0 : Z) (slots : nat) :
  forallb in_table queue = true ->
  exists c',
    processM8Packets std_cos std_sin (set_queue queue (M8Client_new scan0 (S slots)))
    = Ok c'
    /\ map header_seq (fired c') = map uint32 (upto (length (fired c')) 0)
    /\ sweep_counter_ c' = uint32 (Z.of_nat (length (fired c'))).
Proof.
  intros Htable. unfold processM8Packets.
  destruct (consume_returns std_cos std_sin _ Htable
              (set_queue queue (M8Client_new scan0 (S slots)))) as [c' Hrun].
  exists c'. split; [exact Hrun|].
  eapply consume_numbered; [| |exact Hrun].
  - cbn [set_queue M8Client_new num_slots]. lia.
  - split; reflexivity.
Qed.

End Sweeps.

Lemma toPointClouds_fired_sweeps_witness :
  exists c' new,
    toPointClouds const_zero const_zero ramp_packet (M8Client_new 0 1) = Ok c'
    /\ fired c' = fired (M8Client_new 0 1) ++ new
    /\ (length new <= 50)%nat
    /\ Forall (fired_at (capture_time ramp_packet)) new
    /\ ((num_slots (M8Client_new 0 1) = 0)%nat -> new = []).
Proof.
  apply toPointClouds_fired_sweeps. vm_compute. reflexivity.
Defined.

Lemma sweeps_numbered_in_order_witness :
  exists c',
    processM8Packets const_zero const_zero
      (set_queue [ramp_packet; still_packet] (M8Client_new 0 1)) = Ok c'
    /\ map header_seq (fired c') = map uint32 (upto (length (fired c')) 0)
    /\ sweep_counter_ c' = uint32 (Z.of_nat (length (fired c'))).
Proof.
  apply sweeps_numbered_in_order. vm_compute. reflexivity.
Defined.

Lemma length_concat_blocks_Z (A : Type) (g : Z -> list A) (w : nat) (L : list Z) :
  (forall i, length (g i) = w) -> length (concat (map g L)) = (length L * w)%nat.
Proof.
  intros Hlen. induction L as [|a L IH]; cbn [map concat length Nat.mul].
  - reflexivity.
  - rewrite length_app, Hlen, IH. reflexivity.
Qed.

Section Conservation.

Variables std_cos std_sin : spec_float -> spec_float.

(** The organized cloud of a sweep of whole firings, at most 2^32
    points, permutes the sweep. *)
Lemma organized_cloud_permutation (sweep : PointCloud) :
  size sweep mod 8 = 0 -> size sweep <= 2 ^ 32 ->
  Permutation (points (organized_cloud sweep)) (points sweep).
Proof.
  intros Hmod Hsize.
  assert (Hpos : 0 <= size sweep) by (unfold size; lia).
  assert (Hdiv : size sweep = 8 * (size sweep / 8))
    by (apply Z.div_exact; [lia | exact Hmod]).
  assert (Hw : uint32 (size sweep / M8_NUM_LASERS) = size sweep / 8).
  { unfold M8_NUM_LASERS. apply uint32_small. lia. }
  assert (Hlen : length (points sweep) = (8 * Z.to_nat (size sweep / 8))%nat)
    by (unfold size in *; lia).
  unfold organized_cloud. cbn [points]. rewrite Hw.
  replace (concat (map (collected (points sweep) (Z.to_nat (size sweep / 8)))
                       lasers_top_down))
    with (ring_order (points sweep) (Z.to_nat (size sweep / 8))).
  - apply ring_order_permutation, Hlen.
  - unfold ring_order. f_equal. apply map_ext_in. intros i Hi. symmetry.
    apply collected_ring; [exact Hsize | lia | apply lasers_top_down_lt, Hi].
Qed.

(** Firings neither lose nor duplicate a point, as long as a slot takes
    the sweeps and the sweep in progress has room. *)
Lemma after_firings_all_points (pkt : M8DataPacket) (time dir : Z) (indices : list Z) :
  forall c,
    (0 < num_slots c)%nat ->
    size (current_sweep_xyzi_ c) mod 8 = 0 ->
    size (current_sweep_xyzi_ c) + 8 * Z.of_nat (length indices) <= 2 ^ 32 ->
    let c' := after_firings std_cos std_sin pkt time dir indices c in
    Permutation (all_points c')
      (all_points c
       ++ concat (map (fun i => firing_points std_cos std_sin pkt i
                                  (firing_position pkt (scan_counter_ c) i))
                      indices))
    /\ size (current_sweep_xyzi_ c') mod 8 = 0
    /\ size (current_sweep_xyzi_ c')
       <= size (current_sweep_xyzi_ c) + 8 * Z.of_nat (length indices).
Proof.
  induction indices as [|i indices IH]; intros c Hslots Hmod Hroom; cbv zeta.
  - cbn [after_firings fold_left map concat length]. rewrite app_nil_r.
    split; [reflexivity | split; [exact Hmod | lia]].
  - unfold after_firings. cbn [fold_left map concat].
    fold (after_firings std_cos std_sin pkt time dir indices
            (after_firing std_cos std_sin pkt time dir i c)).
    set (c1 := after_firing std_cos std_sin pkt time dir i c).
    set (pts := firing_points std_cos std_sin pkt i
                  (firing_position pkt (scan_counter_ c) i)).
    destruct (after_firing_cases std_cos std_sin pkt time dir i c)
      as (_ & Hscan & Hs & _ & Hcases).
    fold c1 in Hscan, Hs, Hcases. fold pts in Hcases.
    assert (Hpts : length pts = 8%nat) by apply firing_points_length.
    cbn [length] in Hroom. rewrite Nat2Z.inj_succ in Hroom.
    assert (Hstep : Permutation (all_points c1) (all_points c ++ pts)
                    /\ size (current_sweep_xyzi_ c1) mod 8 = 0
                    /\ size (current_sweep_xyzi_ c1) <= size (current_sweep_xyzi_ c) + 8).
    { destruct Hcases as [(Hfired & _ & Hcur)|(Hsome & Hfired & _ & Hcur)].
      - unfold all_points, size. rewrite Hfired, Hcur, length_app, Hpts.
        split; [rewrite app_assoc; reflexivity|].
        unfold size in Hmod. split; [|lia].
        rewrite Nat2Z.inj_add. change (Z.of_nat 8) with (1 * 8).
        rewrite Z.mod_add by lia. exact Hmod.
      - destruct (Nat.ltb_spec 0 (num_slots c)) as [_|Hzero]; [|lia].
        unfold all_points, size. rewrite Hfired, Hcur, Hpts.
        rewrite map_app, concat_app. cbn [map concat set_header points].
        rewrite app_nil_r, <- !app_assoc.
        split; [|split; [reflexivity | unfold size in Hsome; lia]].
        apply Permutation_app_head, Permutation_app_tail.
        apply organized_cloud_permutation; [exact Hmod | lia]. }
    destruct Hstep as (Hperm1 & Hmod1 & Hsize1).
    destruct (IH c1) as (Hperm & Hmod' & Hsize');
      [rewrite Hs; exact Hslots | exact Hmod1 | lia |].
    split; [|split; [exact Hmod' | cbn [length]; rewrite Nat2Z.inj_succ; lia]].
    rewrite Hperm, Hscan, Hperm1, <- app_assoc. reflexivity.
Qed.

(** X9.  With a slot connected, a sweep in progress made of whole
    firings and room for 400 more points below 2^32, a packet whose
    positions are indices of the tables is processed to the end without
    losing or duplicating a point: the points of the sweeps fired so
    far, followed by those in progress, are a permutation of what they
    were before, followed by the 400 points of the packet.  The sweep in
    progress is again made of whole firings. *)
Theorem toPointClouds_keeps_points (pkt : M8DataPacket) (c : M8Client) :
  in_table pkt = true ->
  (0 < num_slots c)%nat ->
  size (current_sweep_xyzi_ c) mod 8 = 0 ->
  size (current_sweep_xyzi_ c) + 400 <= 2 ^ 32 ->
  exists c',
    toPointClouds std_cos std_sin pkt c = Ok c'
    /\ Permutation (all_points c')
         (all_points c
          ++ packet_points std_cos std_sin pkt (uint32 (scan_counter_ c + 1)))
    /\ length (packet_points std_cos std_sin pkt (uint32 (scan_counter_ c + 1))) = 400%nat
    /\ size (current_sweep_xyzi_ c') mod 8 = 0.
Proof.
  intros Htable Hslots Hmod Hroom.
  destruct (toPointClouds_in_table std_cos std_sin pkt c Htable) as [c' Hrun].
  pose proof (toPointClouds_firings _ _ _ _ Hrun) as Hc'.
  destruct (@after_firings_all_points pkt (capture_time pkt) (direction pkt)
              (upto (Z.to_nat M8_FIRING_PER_PKT) 0)
              (set_scan_counter (uint32 (scan_counter_ c + 1)) c))
    as (Hperm & Hmod' & _); [exact Hslots | exact Hmod | exact Hroom |].
  rewrite <- Hc' in Hperm, Hmod'.
  exists c'. split; [exact Hrun|]. split; [exact Hperm|]. split; [|exact Hmod'].
  unfold packet_points.
  rewrite (length_concat_blocks_Z _ (w := 8%nat)).
  - reflexivity.
  - intros i. apply firing_points_length.
Qed.

End Conservation.

Lemma toPointClouds_keeps_points_witness :
  exists c',
    toPointClouds const_zero const_zero ramp_packet (M8Client_new 0 1) = Ok c'
    /\ Permutation (all_points c')
         (all_points (M8Client_new 0 1)
          ++ packet_points const_zero const_zero ramp_packet
               (uint32 (scan_counter_ (M8Client_new 0 1) + 1)))
    /\ length (packet_points const_zero const_zero ramp_packet
                 (uint32 (scan_counter_ (M8Client_new 0 1) + 1))) = 400%nat
    /\ size (current_sweep_xyzi_ c') mod 8 = 0.
Proof.
  apply toPointClouds_keeps_points.
  - vm_compute. reflexivity.
  - cbn. lia.
  - reflexivity.
  - vm_compute. discriminate.
Defined.

(** ** The fields [toPointClouds] reads *)

Lemma for_up_ext_range (S : Type) (body body' : Z -> S -> outcome S) (n : nat) :
  forall i0 s,
    (forall i s, i0 <= i < i0 + Z.of_nat n -> body i s = body' i s) ->
    for_up n i0 body s = for_up n i0 body' s.
Proof.
  induction n as [|n IH]; intros i0 s Hext; cbn [for_up].
  - reflexivity.
  - rewrite Hext by lia. destruct (body' i0 s); cbn [bind]; auto.
    apply IH. intros i s' Hi. apply Hext. lia.
Qed.

(** X10.  [toPointClouds] reads of a packet only the positions, the
    distances and intensities of return 0 and the two words of the
    capture time: two packets that agree on these are processed alike,
    whatever their padding, their returns 1 and 2, their status bytes
    and their status word. *)
Theorem toPointClouds_reads_first_return
    (std_cos std_sin : spec_float -> spec_float) (p q : M8DataPacket) (c : M8Client) :
  same_fields p q = true ->
  toPointClouds std_cos std_sin p c = toPointClouds std_cos std_sin q c.
Proof.
  intros Hsame. unfold same_fields in Hsame.
  apply andb_prop in Hsame. destruct Hsame as [Hsame Hns].
  apply andb_prop in Hsame. destruct Hsame as [Hfirings Hs].
  apply Z.eqb_eq in Hs, Hns. rewrite forallb_forall in Hfirings.
  assert (Hpos : forall i, 0 <= i < 50 -> position p i = position q i).
  { intros i Hi. specialize (Hfirings i (@upto_In 50 0 i ltac:(lia))).
    apply andb_prop in Hfirings. apply Z.eqb_eq, Hfirings. }
  assert (Hret : forall i j, 0 <= i < 50 -> 0 <= j < 8 ->
             returns_distances p i 0 j = returns_distances q i 0 j
             /\ returns_intensities p i 0 j = returns_intensities q i 0 j).
  { intros i j Hi Hj. specialize (Hfirings i (@upto_In 50 0 i ltac:(lia))).
    apply andb_prop in Hfirings. destruct Hfirings as [_ Hlasers].
    rewrite forallb_forall in Hlasers.
    specialize (Hlasers j (@upto_In 8 0 j ltac:(lia))).
    apply andb_prop in Hlasers. split; apply Z.eqb_eq, Hlasers. }
  assert (Hspin : spin p = spin q).
  { unfold spin. change (M8_FIRING_PER_PKT - 1) with 49.
    rewrite (Hpos 0), (Hpos 49) by lia. reflexivity. }
  assert (Hdir : direction p = direction q).
  { unfold direction. change (M8_FIRING_PER_PKT - 1) with 49.
    rewrite Hspin, (Hpos 0), (Hpos 49) by lia. reflexivity. }
  assert (Htime : capture_time p = capture_time q).
  { unfold capture_time. rewrite Hs, Hns. reflexivity. }
  unfold toPointClouds. rewrite Hdir, Htime.
  apply for_up_ext_range. intros i s Hi.
  change (Z.of_nat (Z.to_nat M8_FIRING_PER_PKT)) with 50 in Hi.
  unfold process_firing.
  assert (Hfp : firing_position p (scan_counter_ s) i
                = firing_position q (scan_counter_ s) i).
  { unfold firing_position. rewrite Hspin, (Hpos i) by lia. reflexivity. }
  rewrite Hfp.
  destruct (if sweep_boundary _ _ _ then _ else _) as [c1| |]; cbn [bind]; try reflexivity.
  destruct (lookup (cos_lookup_table_ std_cos) _); cbn [bind]; try reflexivity.
  destruct (lookup (sin_lookup_table_ std_sin) _); cbn [bind]; try reflexivity.
  rewrite (@for_up_ext_range _ (add_point std_cos std_sin p i a a0)
             (add_point std_cos std_sin q i a a0)); [reflexivity|].
  intros j sweep Hj. change (Z.of_nat (Z.to_nat M8_NUM_LASERS)) with 8 in Hj.
  unfold add_point. destruct (Hret i j ltac:(lia) ltac:(lia)) as [-> ->].
  reflexivity.
Qed.

Lemma toPointClouds_reads_first_return_witness :
  toPointClouds const_zero const_zero ramp_packet (M8Client_new 0 1)
  = toPointClouds const_zero const_zero noisy_ramp_packet (M8Client_new 0 1).
Proof.
  apply toPointClouds_reads_first_return. vm_compute. reflexivity.
Defined.

(** ** The azimuth and the boundary test, by encoder position *)

(** The order of [SFltb] is strict. *)
Lemma SFltb_trans (a b c : spec_float) :
  SFltb a b = true -> SFltb b c = true -> SFltb a c = true.
Proof.
  unfold SFltb, SFcompare.
  destruct a as [[]|[]| |[] ma ea], b as [[]|[]| |[] mb eb], c as [[]|[]| |[] mc ec];
    try reflexivity; try discriminate;
    change (Pos.compare_cont Eq) with Pos.compare;
    destruct (Z.compare_spec ea eb), (Z.compare_spec eb ec), (Z.compare_spec ea ec);
    try reflexivity; try discriminate; try lia; subst;
    destruct (Pos.compare_spec ma mb), (Pos.compare_spec mb mc), (Pos.compare_spec ma mc);
    try reflexivity; try discriminate; try lia.
Qed.

Lemma SFltb_irrefl (a : spec_float) : SFltb a a = false.
Proof.
  unfold SFltb, SFcompare.
  destruct a as [[]|[]| |[] m e]; try reflexivity;
    change (Pos.compare_cont Eq) with Pos.compare;
    rewrite Z.compare_refl, Pos.compare_refl; reflexivity.
Qed.

Lemma SFltb_asym (a b : spec_float) : SFltb a b = true -> SFltb b a = false.
Proof.
  intros Hab. destruct (SFltb b a) eqn:Hba; [|reflexivity].
  pose proof (SFltb_trans _ _ _ Hab Hba) as H. rewrite SFltb_irrefl in H. discriminate.
Qed.

Lemma SFltb_leb (a b : spec_float) : SFltb a b = true -> SFleb a b = true.
Proof.
  unfold SFltb, SFleb. destruct (SFcompare a b) as [[]|]; auto.
Qed.

(** Steps of a strict order chain. *)
Lemma steps_lt (g : Z -> spec_float) (lo hi : Z) :
  (forall i, lo <= i < hi -> SFltb (g i) (g (i + 1)) = true) ->
  forall i j, lo <= i -> i < j -> j <= hi -> SFltb (g i) (g j) = true.
Proof.
  intros Hstep i j Hi Hij Hj.
  remember (Z.to_nat (j - i - 1)) as d eqn:Hd. revert j Hij Hj Hd.
  induction d as [|d IH]; intros j Hij Hj Hd.
  - replace j with (i + 1) by lia. apply Hstep. lia.
  - apply (SFltb_trans _ (g (j - 1))).
    + apply IH; lia.
    + replace j with (j - 1 + 1) at 2 by lia. apply Hstep. lia.
Qed.

Lemma azimuth_chains_steps (n : nat) :
  forall k,
    azimuth_chains n k (wrapped_azimuth k) (signed_azimuth 1 k) (signed_azimuth (-1) k)
    = true ->
    forall i, k <= i < k + Z.of_nat n ->
      SFltb (wrapped_azimuth i) (wrapped_azimuth (i + 1)) = true
      /\ SFltb (signed_azimuth 1 i) (signed_azimuth 1 (i + 1)) = true
      /\ SFltb (signed_azimuth (-1) (i + 1)) (signed_azimuth (-1) i) = true.
Proof.
  induction n as [|n IH]; intros k Hc i Hi.
  - lia.
  - cbn [azimuth_chains] in Hc. cbv zeta in Hc.
    fold (signed_azimuth 1 (k + 1)) in Hc. fold (signed_azimuth (-1) (k + 1)) in Hc.
    apply andb_prop in Hc. destruct Hc as [Hc Hrest].
    apply andb_prop in Hc. destruct Hc as [Hc Hb].
    apply andb_prop in Hc. destruct Hc as [Ha Hf].
    destruct (Z.eq_dec i k) as [->|Hne]; [auto|].
    apply (IH (k + 1) Hrest). lia.
Qed.

Lemma wrapped_range (pos : Z) : 0 <= wrapped pos < M8_NUM_ROT_ANGLES.
Proof. unfold wrapped. apply Z.mod_pos_bound. reflexivity. Qed.

Lemma azimuth_angle_wrapped (pos : Z) : azimuth_angle pos = wrapped_azimuth (wrapped pos).
Proof. reflexivity. Qed.

(** The three chains, by evaluation of the 10400 angles. *)
Lemma azimuth_chains_hold :
  azimuth_chains (Z.to_nat 10399) 0
    (wrapped_azimuth 0) (signed_azimuth 1 0) (signed_azimuth (-1) 0) = true.
Proof. vm_cast_no_check (eq_refl true). Qed.

Lemma wrapped_azimuth_lt (k k' : Z) :
  0 <= k -> k < k' -> k' < M8_NUM_ROT_ANGLES ->
  SFltb (wrapped_azimuth k) (wrapped_azimuth k') = true.
Proof.
  intros H0 Hlt Hhi. unfold M8_NUM_ROT_ANGLES in Hhi.
  apply (@steps_lt wrapped_azimuth 0 10399); try lia.
  intros i Hi. apply (@azimuth_chains_steps _ 0 azimuth_chains_hold). lia.
Qed.

Lemma forward_azimuth_lt (k k' : Z) :
  0 <= k -> k < k' -> k' < M8_NUM_ROT_ANGLES ->
  SFltb (signed_azimuth 1 k) (signed_azimuth 1 k') = true.
Proof.
  intros H0 Hlt Hhi. unfold M8_NUM_ROT_ANGLES in Hhi.
  apply (@steps_lt (signed_azimuth 1) 0 10399); try lia.
  intros i Hi. apply (@azimuth_chains_steps _ 0 azimuth_chains_hold). lia.
Qed.

Lemma backward_azimuth_lt (k k' : Z) :
  0 <= k -> k < k' -> k' < M8_NUM_ROT_ANGLES ->
  SFltb (signed_azimuth (-1) k') (signed_azimuth (-1) k) = true.
Proof.
  intros H0 Hlt Hhi. unfold M8_NUM_ROT_ANGLES in Hhi.
  pose proof (@steps_lt (fun i => signed_azimuth (-1) (10399 - i)) 0 10399) as H.
  cbv beta in H.
  specialize (H ltac:(intros i Hi;
                      replace (10399 - i) with (10399 - (i + 1) + 1) by lia;
                      apply (@azimuth_chains_steps _ 0 azimuth_chains_hold); lia)
                (10399 - k') (10399 - k) ltac:(lia) ltac:(lia) ltac:(lia)).
  replace (10399 - (10399 - k')) with k' in H by lia.
  replace (10399 - (10399 - k)) with k in H by lia.
  exact H.
Qed.

(** X11.  The azimuth of a position is a number of [-180, 180), and it
    grows strictly with the position shifted by half a turn,
    (position + 5200) mod 10400: no two of the 10400 shifted positions
    share an azimuth. *)
Theorem azimuth_angle_increasing :
  (forall pos,
     isnan (azimuth_angle pos) = false
     /\ SFleb (Double.of_Z (-180)) (azimuth_angle pos) = true
     /\ Double.ltb (azimuth_angle pos) (Double.of_Z 180) = true)
  /\ (forall pos pos',
        wrapped pos < wrapped pos' ->
        Double.ltb (azimuth_angle pos) (azimuth_angle pos') = true).
Proof.
  split.
  - intros pos. rewrite azimuth_angle_wrapped.
    pose proof (wrapped_range pos) as Hr. unfold M8_NUM_ROT_ANGLES in Hr.
    assert (Hlow : SFleb (Double.of_Z (-180)) (wrapped_azimuth (wrapped pos)) = true).
    { destruct (Z.eq_dec (wrapped pos) 0) as [->|Hne]; [vm_compute; reflexivity|].
      apply SFltb_leb.
      change (Double.of_Z (-180)) with (wrapped_azimuth 0).
      apply wrapped_azimuth_lt; unfold M8_NUM_ROT_ANGLES; lia. }
    assert (Hhigh : SFltb (wrapped_azimuth (wrapped pos)) (Double.of_Z 180) = true).
    { destruct (Z.eq_dec (wrapped pos) 10399) as [->|Hne]; [vm_compute; reflexivity|].
      apply (SFltb_trans _ (wrapped_azimuth 10399)); [|vm_compute; reflexivity].
      apply wrapped_azimuth_lt; unfold M8_NUM_ROT_ANGLES; lia. }
    split; [|split; [exact Hlow | exact Hhigh]].
    destruct (wrapped_azimuth (wrapped pos)); try reflexivity. discriminate Hhigh.
  - intros pos pos' Hlt. rewrite !azimuth_angle_wrapped.
    pose proof (wrapped_range pos). pose proof (wrapped_range pos').
    apply wrapped_azimuth_lt; lia.
Qed.

Lemma azimuth_angle_increasing_witness :
  Double.ltb (azimuth_angle 10399) (azimuth_angle 2) = true.
Proof.
  apply (proj2 azimuth_angle_increasing). vm_compute. reflexivity.
Defined.

(** X12.  Between the azimuths of two positions, the test of the sweep
    boundary is a comparison of the shifted positions: with direction
    +1 the boundary is detected exactly when the shifted position of the
    firing is below that of the firing before, with direction -1 exactly
    when it is above.  A firing at the same position as the one before is
    never a boundary. *)
Theorem sweep_boundary_by_position (pos last : Z) :
  sweep_boundary 1 (azimuth_angle pos) (azimuth_angle last)
  = (wrapped pos <? wrapped last)
  /\ sweep_boundary (-1) (azimuth_angle pos) (azimuth_angle last)
     = (wrapped last <? wrapped pos).
Proof.
  rewrite !azimuth_angle_wrapped. unfold sweep_boundary, Double.ltb.
  fold (signed_azimuth 1 (wrapped pos)). fold (signed_azimuth 1 (wrapped last)).
  fold (signed_azimuth (-1) (wrapped pos)). fold (signed_azimuth (-1) (wrapped last)).
  pose proof (wrapped_range pos) as Hp. pose proof (wrapped_range last) as Hl.
  destruct (Z.lt_total (wrapped pos) (wrapped last)) as [Hlt|[Heq|Hgt]].
  - rewrite (forward_azimuth_lt (k := wrapped pos) (k' := wrapped last)) by lia.
    rewrite (SFltb_asym _ _ (backward_azimuth_lt (k := wrapped pos) (k' := wrapped last)
                               ltac:(lia) Hlt ltac:(lia))).
    destruct (Z.ltb_spec (wrapped pos) (wrapped last)); [|lia].
    destruct (Z.ltb_spec (wrapped last) (wrapped pos)); [lia|]. auto.
  - rewrite Heq, !SFltb_irrefl, Z.ltb_irrefl. auto.
  - rewrite (SFltb_asym _ _ (forward_azimuth_lt (k := wrapped last) (k' := wrapped pos)
                               ltac:(lia) Hgt ltac:(lia))).
    rewrite (backward_azimuth_lt (k := wrapped last) (k' := wrapped pos)) by lia.
    destruct (Z.ltb_spec (wrapped pos) (wrapped last)); [lia|].
    destruct (Z.ltb_spec (wrapped last) (wrapped pos)); [|lia]. auto.
Qed.

(** ** The first firing of a new client *)

Lemma direction_cases (pkt : M8DataPacket) : direction pkt = 1 \/ direction pkt = -1.
Proof.
  unfold direction.
  destruct (spin pkt); [|left; reflexivity].
  destruct (_ >? 0); destruct (_ >? 4000); auto.
Qed.

(** 65000 is above every azimuth; its opposite is below every opposite. *)
Lemma sweep_boundary_65000 (pos : Z) :
  sweep_boundary 1 (azimuth_angle pos) (Double.of_Z 65000) = true
  /\ sweep_boundary (-1) (azimuth_angle pos) (Double.of_Z 65000) = false.
Proof.
  rewrite azimuth_angle_wrapped. unfold sweep_boundary, Double.ltb.
  fold (signed_azimuth 1 (wrapped pos)). fold (signed_azimuth (-1) (wrapped pos)).
  pose proof (wrapped_range pos) as Hr. unfold M8_NUM_ROT_ANGLES in Hr.
  split.
  - destruct (Z.eq_dec (wrapped pos) 10399) as [->|Hne]; [vm_compute; reflexivity|].
    apply (SFltb_trans _ (signed_azimuth 1 10399)); [|vm_compute; reflexivity].
    apply forward_azimuth_lt; unfold M8_NUM_ROT_ANGLES; lia.
  - apply SFltb_asym.
    destruct (Z.eq_dec (wrapped pos) 10399) as [->|Hne]; [vm_compute; reflexivity|].
    apply (SFltb_trans _ (signed_azimuth (-1) 10399)); [vm_compute; reflexivity|].
    apply backward_azimuth_lt; unfold M8_NUM_ROT_ANGLES; lia.
Qed.

(** X13.  On a new client the last azimuth is 65000, above every
    azimuth: the first firing processed is a sweep boundary exactly when
    the direction of its packet is +1, and then the empty initial sweep
    is dropped; with direction -1 it is no boundary.  Either way nothing
    is fired, the sweep counter stays 0 and the sweep in progress holds
    the eight points of the firing. *)
Theorem first_firing_of_new_client
    (std_cos std_sin : spec_float -> spec_float) (pkt : M8DataPacket)
    (i scan0 : Z) (slots : nat) :
  let c := M8Client_new scan0 slots in
  let pos := firing_position pkt (scan_counter_ c) i in
  sweep_boundary (direction pkt) (azimuth_angle pos) (last_azimuth_ c)
  = (direction pkt =? 1)
  /\ match process_firing std_cos std_sin pkt (capture_time pkt) (direction pkt) i c with
     | Ok c' =>
         fired c' = []
         /\ sweep_counter_ c' = 0
         /\ points (current_sweep_xyzi_ c') = firing_points std_cos std_sin pkt i pos
         /\ is_dense (current_sweep_xyzi_ c') = true
     | Undefined_behaviour => ~ (0 <= pos < M8_NUM_ROT_ANGLES + 1)
     | Thrown_out_of_range => False
     end.
Proof.
  cbv zeta.
  set (c := M8Client_new scan0 slots).
  set (pos := firing_position pkt (scan_counter_ c) i).
  destruct (sweep_boundary_65000 pos) as [Hfwd Hbwd].
  split.
  - change (last_azimuth_ c) with (Double.of_Z 65000).
    destruct (direction_cases pkt) as [-> | ->]; assumption.
  - rewrite process_firing_eq. cbv zeta. fold pos.
    destruct (Z.leb_spec 0 pos); destruct (Z.ltb_spec pos (M8_NUM_ROT_ANGLES + 1));
      cbn [andb]; try lia.
    destruct (after_firing_cases std_cos std_sin pkt (capture_time pkt) (direction pkt) i c)
      as (_ & _ & _ & _ & [(Hfired & Hsc & Hcur)|(Hsome & _)]).
    + rewrite Hfired, Hsc, Hcur. fold pos. repeat split.
      unfold after_firing. fold pos.
      cbn [set_last_azimuth set_sweep current_sweep_xyzi_].
      destruct (append_points_spec (firing_points std_cos std_sin pkt i pos)
                  (current_sweep_xyzi_
                     (after_boundary (capture_time pkt) (direction pkt)
                        (azimuth_angle pos) c))) as (_ & _ & _ & Hd).
      rewrite Hd. unfold after_boundary. clear Hfwd Hbwd.
      destruct (sweep_boundary _ _ _); reflexivity.
    + discriminate Hsome.
Qed.

(** ** Packets that advance in their direction *)

Lemma no_boundary_when_advancing (dir pos last : Z) :
  dir = 1 \/ dir = -1 ->
  (if dir =? 1 then wrapped last <=? wrapped pos else wrapped pos <=? wrapped last) = true ->
  sweep_boundary dir (azimuth_angle pos) (azimuth_angle last) = false.
Proof.
  intros Hdir Hadv. rewrite !azimuth_angle_wrapped. unfold sweep_boundary, Double.ltb.
  pose proof (wrapped_range pos) as Hp. pose proof (wrapped_range last) as Hl.
  destruct Hdir as [-> | ->]; cbn [Z.eqb Pos.eqb] in Hadv; apply Z.leb_le in Hadv.
  - fold (signed_azimuth 1 (wrapped pos)). fold (signed_azimuth 1 (wrapped last)).
    destruct (Z.eq_dec (wrapped last) (wrapped pos)) as [->|Hne]; [apply SFltb_irrefl|].
    apply SFltb_asym, forward_azimuth_lt; lia.
  - fold (signed_azimuth (-1) (wrapped pos)). fold (signed_azimuth (-1) (wrapped last)).
    destruct (Z.eq_dec (wrapped last) (wrapped pos)) as [->|Hne]; [apply SFltb_irrefl|].
    apply SFltb_asym, backward_azimuth_lt; lia.
Qed.

Section Advancing.

Variables std_cos std_sin : spec_float -> spec_float.

Lemma upto_firings : upto (Z.to_nat M8_FIRING_PER_PKT) 0 = 0 :: upto 49 1.
Proof. reflexivity. Qed.

Lemma after_firings_cons (pkt : M8DataPacket) (time dir i : Z) (indices : list Z)
    (c : M8Client) :
  after_firings std_cos std_sin pkt time dir (i :: indices) c
  = after_firings std_cos std_sin pkt time dir indices
      (after_firing std_cos std_sin pkt time dir i c).
Proof. reflexivity. Qed.

Lemma after_firing_last_azimuth (pkt : M8DataPacket) (time dir i : Z) (c : M8Client) :
  last_azimuth_ (after_firing std_cos std_sin pkt time dir i c)
  = azimuth_angle (firing_position pkt (scan_counter_ c) i).
Proof. reflexivity. Qed.

Lemma after_firing_no_boundary (pkt : M8DataPacket) (time dir i : Z) (c : M8Client) :
  sweep_boundary dir (azimuth_angle (firing_position pkt (scan_counter_ c) i))
                 (last_azimuth_ c) = false ->
  fired (after_firing std_cos std_sin pkt time dir i c) = fired c
  /\ points (current_sweep_xyzi_ (after_firing std_cos std_sin pkt time dir i c))
     = points (current_sweep_xyzi_ c)
       ++ firing_points std_cos std_sin pkt i (firing_position pkt (scan_counter_ c) i).
Proof.
  intros Hno. unfold after_firing, after_boundary. rewrite Hno.
  cbn [set_last_azimuth set_sweep fired current_sweep_xyzi_].
  split; [reflexivity|]. apply append_points_spec.
Qed.

(** The firings [k], ..., [k + n - 1] of an advancing spinning packet,
    after firing [k - 1]: no boundary. *)
Lemma after_firings_advancing (pkt : M8DataPacket) (time : Z) (n : nat) :
  spin pkt = true -> advancing pkt = true ->
  forall k c,
    1 <= k -> k + Z.of_nat n <= 50 ->
    last_azimuth_ c = azimuth_angle (position pkt (k - 1)) ->
    let c' := after_firings std_cos std_sin pkt time (direction pkt) (upto n k) c in
    fired c' = fired c
    /\ points (current_sweep_xyzi_ c')
       = points (current_sweep_xyzi_ c)
         ++ concat (map (fun i => firing_points std_cos std_sin pkt i (position pkt i))
                        (upto n k)).
Proof.
  intros Hspin Hadv.
  assert (Hfp : forall s i, firing_position pkt s i = position pkt i)
    by (intros s i; unfold firing_position; rewrite Hspin; reflexivity).
  unfold advancing in Hadv. rewrite forallb_forall in Hadv.
  induction n as [|n IH]; intros k c Hk Hn Hlast; cbv zeta.
  - cbn [upto after_firings fold_left map concat]. rewrite app_nil_r. auto.
  - cbn [upto map concat]. rewrite after_firings_cons.
    destruct (@after_firing_no_boundary pkt time (direction pkt) k c) as [Hf Hp].
    { rewrite Hfp, Hlast. apply no_boundary_when_advancing; [apply direction_cases|].
      apply (Hadv k). apply (@upto_In 49 1 k). lia. }
    destruct (IH (k + 1) (after_firing std_cos std_sin pkt time (direction pkt) k c))
      as [Hf' Hp']; [lia | lia | |].
    { rewrite after_firing_last_azimuth, Hfp. do 2 f_equal. lia. }
    rewrite Hf', Hp', Hf, Hp, Hfp, <- app_assoc. auto.
Qed.

(** X14.  A spinning packet whose positions are indices of the tables
    and that never steps back against its direction is kept in one
    piece: no boundary is detected after its first firing, so at most
    one sweep is fired while it is processed and its 400 points end the
    sweep in progress, in the order of the firings. *)
Theorem advancing_packet_in_one_sweep (pkt : M8DataPacket) (c : M8Client) :
  in_table pkt = true ->
  spin pkt = true ->
  advancing pkt = true ->
  exists c' before,
    toPointClouds std_cos std_sin pkt c = Ok c'
    /\ (length (fired c') <= length (fired c) + 1)%nat
    /\ points (current_sweep_xyzi_ c')
       = before ++ packet_points std_cos std_sin pkt (uint32 (scan_counter_ c + 1))
    /\ (before = [] \/ before = points (current_sweep_xyzi_ c)).
Proof.
  intros Htable Hspin Hadv.
  destruct (toPointClouds_in_table std_cos std_sin pkt c Htable) as [c' Hrun].
  pose proof (toPointClouds_firings _ _ _ _ Hrun) as Hc'.
  assert (Hfp : forall s i, firing_position pkt s i = position pkt i)
    by (intros s i; unfold firing_position; rewrite Hspin; reflexivity).
  rewrite upto_firings, after_firings_cons in Hc'.
  set (c0 := set_scan_counter (uint32 (scan_counter_ c + 1)) c) in Hc'.
  set (c1 := after_firing std_cos std_sin pkt (capture_time pkt) (direction pkt) 0 c0) in Hc'.
  destruct (@after_firings_advancing pkt (capture_time pkt) 49 Hspin Hadv 1 c1)
    as [Hf Hp]; [lia | lia | |].
  { unfold c1. rewrite after_firing_last_azimuth, Hfp. reflexivity. }
  rewrite <- Hc' in Hf, Hp.
  assert (Hpts : packet_points std_cos std_sin pkt (uint32 (scan_counter_ c + 1))
                 = firing_points std_cos std_sin pkt 0 (position pkt 0)
                   ++ concat (map (fun i => firing_points std_cos std_sin pkt i (position pkt i))
                                  (upto 49 1))).
  { unfold packet_points. rewrite upto_firings.
    cbn [map concat]. rewrite Hfp.
    rewrite (map_ext _ (fun i => firing_points std_cos std_sin pkt i (position pkt i)));
      [reflexivity|].
    intros i. rewrite Hfp. reflexivity. }
  destruct (after_firing_cases std_cos std_sin pkt (capture_time pkt) (direction pkt) 0 c0)
    as (_ & _ & _ & _ & Hcases). fold c1 in Hcases. rewrite Hfp in Hcases.
  destruct Hcases as [(Hf1 & _ & Hp1)|(_ & Hf1 & _ & Hp1)].
  - exists c', (points (current_sweep_xyzi_ c)). split; [exact Hrun|].
    rewrite Hf, Hf1, Hp, Hp1, Hpts, <- app_assoc.
    split; [cbn [c0 set_scan_counter fired]; lia|]. split; [reflexivity | right; reflexivity].
  - exists c', []. split; [exact Hrun|].
    rewrite Hf, Hf1, Hp, Hp1, Hpts.
    split; [|split; [reflexivity | left; reflexivity]].
    rewrite length_app. cbn [c0 set_scan_counter fired num_slots].
    destruct (0 <? num_slots c)%nat; cbn [length]; lia.
Qed.

End Advancing.

Lemma advancing_packet_in_one_sweep_witness :
  exists c' before,
    toPointClouds const_zero const_zero falling_packet (M8Client_new 0 1) = Ok c'
    /\ (length (fired c') <= length (fired (M8Client_new 0 1)) + 1)%nat
    /\ points (current_sweep_xyzi_ c')
       = before ++ packet_points const_zero const_zero falling_packet
                     (uint32 (scan_counter_ (M8Client_new 0 1) + 1))
    /\ (before = [] \/ before = points (current_sweep_xyzi_ (M8Client_new 0 1))).
Proof.
  apply advancing_packet_in_one_sweep; vm_compute; reflexivity.
Defined.
